(** * The parser model of [a2/student/parser model.ipynb]

    A shallow embedding of the notebook: the class [ParserModel]
    (its constructor, [embedding_lookup] and [forward]), the two sanity
    checks and the notebook cells that call them.

    Tensors are modelled the way the tensor library stores them: a shape
    and a flat, row-major buffer.  Floating-point scalars are kept
    abstract (class [Scalar]), and so is the order in which a matrix
    product accumulates its sums; every theorem holds for any scalar type
    and any interpretation of its primitives, hence for the floats of the
    tensor library.  The
    embedding matrix carries its dtype, since the class keeps the dtype of
    the array it is given while its layers are float32.  Random number
    generation and the interpreter's globals are explicit state. *)

From Stdlib Require Import String ZArith NArith Arith Lia Bool List.
From Stdlib Require SpecFloat.
Import ListNotations.

Set Implicit Arguments.

(** ** Exceptions and fallible results *)

(** The Python exceptions the modelled code can raise.  [Unmodelled] marks
    library behaviour outside the embedding ([matmul] and broadcasting on
    ranks the class never produces once its parameters have the shapes the
    constructor gives them). *)
Inductive exn : Type :=
| IndexError
| RuntimeError
| ValueError
| AssertionError
| NameError
| ZeroDivisionError
| Unmodelled.

Inductive result (A : Type) : Type :=
| Ok (a : A)
| Fail (e : exn).
Arguments Ok {A} a.
Arguments Fail {A} e.

Definition rbind {A B} (r : result A) (f : A -> result B) : result B :=
  match r with
  | Ok a => f a
  | Fail e => Fail e
  end.

(** ** Scalars *)

(** The floating-point primitives the notebook relies on.  Only two facts
    about them are used: [0 == 0] holds, and the default dropout
    probability [0.5] lies in [[0, 1]]. *)
Class Scalar (F : Type) : Type := {
  fzero : F;
  fadd : F -> F -> F;
  fmul : F -> F -> F;
  (** [matmul_entry n k m i j r c]: entry [(i, j)] of the product of an
      [(n, k)] by a [(k, m)] matrix as [torch.matmul] computes it from row
      [i] of the first and column [j] of the second, a floating-point sum
      of the products [r[l] * c[l]] accumulated in an order the library
      chooses from the shapes and the position.  Nothing is assumed about
      that order. *)
  matmul_entry : nat -> nat -> nat -> nat -> nat -> list F -> list F -> F;
  (** [torch.relu] on one element. *)
  frelu : F -> F;
  (** [v == 0] as evaluated by numpy. *)
  is_zero : F -> bool;
  is_zero_fzero : is_zero fzero = true;
  (** [0 <= p <= 1], the check of [nn.Dropout.__init__] and of every
      call of the layer. *)
  prob_in_range : F -> bool;
  (** [p == 0] and [p == 1], the two probabilities for which dropout does
      not ask the generator. *)
  prob_is_zero : F -> bool;
  prob_is_one : F -> bool;
  (** The literal [0.5], default of [dropout_prob]. *)
  default_dropout_prob : F;
  default_dropout_prob_ok : prob_in_range default_dropout_prob = true;
  (** One entry of the dropout noise tensor for probability [p], from one
      raw draw: [bernoulli(1 - p) / (1 - p)]. *)
  dropout_noise : F -> N -> F;
  (** One sample of [init.xavier_uniform_] for the given fans. *)
  xavier_uniform_sample : nat -> nat -> N -> F;
  (** One sample of [init.uniform_]. *)
  uniform_sample : N -> F
}.

(** ** Tensors *)

Record tensor (A : Type) : Type := mkTensor {
  shape : list nat;
  data : list A
}.

Definition numel (s : list nat) : nat := fold_right Nat.mul 1 s.

(** The buffer holds exactly the elements the shape announces. *)
Definition wf_tensor {A} (t : tensor A) : Prop :=
  length (data t) = numel (shape t).

(** The floating dtypes of an array of embeddings.  A layer parameter
    made by [torch.zeros] is [float32]. *)
Inductive dtype : Type := float16 | float32 | float64.

Definition dtype_eqb (a b : dtype) : bool :=
  match a, b with
  | float16, float16 | float32, float32 | float64, float64 => true
  | _, _ => false
  end.

(** A floating-point tensor together with its dtype: the array of
    embeddings handed to the constructor and the parameter made from
    it. *)
Record typed (A : Type) : Type := mkTyped {
  dtype_of : dtype;
  untyped :> tensor A
}.

Definition map2 {A B C} (f : A -> B -> C) (l1 : list A) (l2 : list B) : list C :=
  map (fun p => f (fst p) (snd p)) (combine l1 l2).

(** [chunks k n l]: the first [n] consecutive blocks of width [k] of [l]. *)
Fixpoint chunks {A} (k n : nat) (l : list A) : list (list A) :=
  match n with
  | 0 => []
  | S n' => firstn k l :: chunks k n' (skipn k l)
  end.

(** Rows of a two-dimensional tensor (empty for any other rank). *)
Definition rows {A} (t : tensor A) : list (list A) :=
  match shape t with
  | [n; k] => chunks k n (data t)
  | _ => []
  end.

(** [t.size(d)] / [t.shape[d]]. *)
Definition size {A} (t : tensor A) (d : nat) : result nat :=
  match nth_error (shape t) d with
  | Some n => Ok n
  | None => Fail IndexError
  end.

(** [torch.zeros] of a shape. *)
Definition zeros {F} `{Scalar F} (s : list nat) : tensor F :=
  mkTensor s (repeat fzero (numel s)).

Section Indexing.
Context {A : Type}.

(** An index into a dimension of size [n]: non-negative indices below [n]
    select directly, indices in [[-n, 0)] count from the end, anything
    else is out of range. *)
Definition norm_index (n : nat) (i : Z) : option nat :=
  if ((0 <=? i) && (i <? Z.of_nat n))%Z then Some (Z.to_nat i)
  else if ((- Z.of_nat n <=? i) && (i <? 0))%Z then Some (Z.to_nat (i + Z.of_nat n))
  else None.

Definition slice_row (k : nat) (d : list A) (j : nat) : list A :=
  firstn k (skipn (j * k) d).

(** [e[i]] for one integer [i]: the sub-tensor's buffer, or [None] when
    [i] is out of range. *)
Definition select_row (e : tensor A) (i : Z) : option (list A) :=
  match shape e with
  | [] => None
  | n :: rest =>
      match norm_index n i with
      | Some j => Some (slice_row (numel rest) (data e) j)
      | None => None
      end
  end.

Fixpoint gather (e : tensor A) (idx : list Z) : option (list (list A)) :=
  match idx with
  | [] => Some []
  | i :: idx' =>
      match select_row e i with
      | None => None
      | Some r =>
          match gather e idx' with
          | None => None
          | Some rs => Some (r :: rs)
          end
      end
  end.

(** [e[w]] for an integer tensor [w]: one sub-tensor of [e] per entry of
    [w], laid out in the order of [w]. *)
Definition getitem (e : tensor A) (w : tensor Z) : result (tensor A) :=
  match shape e with
  | [] => Fail IndexError
  | _ :: rest =>
      match gather e (data w) with
      | None => Fail IndexError
      | Some rs => Ok (mkTensor (shape w ++ rest) (concat rs))
      end
  end.

(** Size inference of [view]: at most one [-1], no other negative
    entry; the known sizes must multiply to the number of elements, or
    divide it when a dimension is inferred.  Inferring a dimension of a
    tensor without elements next to a zero size is refused ("cannot
    reshape tensor of 0 elements into shape [0, -1] because the
    unspecified dimension size -1 can be any value and is ambiguous"). *)
Definition known_size (s : list Z) : nat :=
  fold_right (fun d acc => if (d =? -1)%Z then acc else Z.to_nat d * acc) 1 s.

Definition infer_size (s : list Z) (n : nat) : result (list nat) :=
  if existsb (fun d => (d <? -1)%Z) s then Fail RuntimeError
  else
    let newsize := known_size s in
    match count_occ Z.eq_dec s (-1)%Z with
    | 0 => if n =? newsize then Ok (map Z.to_nat s) else Fail RuntimeError
    | 1 =>
        if (n =? newsize) || ((0 <? newsize) && (n mod newsize =? 0))
        then
          if newsize =? 0 then Fail RuntimeError
          else Ok (map (fun d => if (d =? -1)%Z then n / newsize else Z.to_nat d) s)
        else Fail RuntimeError
    | _ => Fail RuntimeError
    end.

(** [t.view] onto a shape: the same buffer under the inferred sizes. *)
Definition view (t : tensor A) (s : list Z) : result (tensor A) :=
  rbind (infer_size s (numel (shape t))) (fun s' => Ok (mkTensor s' (data t))).
End Indexing.

Section Arithmetic.
Context {F : Type} `{Scalar F}.

(** Column [j] of a list of rows. *)
Definition column (rs : list (list F)) (j : nat) : list F :=
  flat_map (fun r => firstn 1 (skipn j r)) rs.

(** [torch.matmul] of two matrices of one dtype. *)
Definition matmul (x wt : tensor F) : result (tensor F) :=
  match shape x, shape wt with
  | [n; k], [k'; m] =>
      if k =? k'
      then Ok (mkTensor [n; m]
                 (flat_map
                    (fun i => map (fun j => matmul_entry n k m i j
                                              (nth i (rows x) [])
                                              (column (rows wt) j))
                                  (seq 0 m))
                    (seq 0 n)))
      else Fail RuntimeError
  | _, _ => Fail Unmodelled
  end.

(** [torch.matmul] of operands of dtypes [dx] and [dw]: operands of
    different dtypes are refused. *)
Definition matmul_dtypes (dx dw : dtype) (x wt : tensor F) : result (tensor F) :=
  if dtype_eqb dx dw then matmul x wt else Fail RuntimeError.

(** One row plus a one-dimensional tensor under broadcasting: equal
    lengths add element by element, a length of one is stretched. *)
Definition broadcast_row (r b : list F) : result (list F) :=
  if length r =? length b then Ok (map2 fadd r b)
  else match b, r with
       | [b0], _ => Ok (map (fun v => fadd v b0) r)
       | _, [v] => Ok (map (fadd v) b)
       | _, _ => Fail RuntimeError
       end.

Fixpoint broadcast_rows (rs : list (list F)) (b : list F) : result (list (list F)) :=
  match rs with
  | [] => Ok []
  | r :: rs' =>
      rbind (broadcast_row r b) (fun r' =>
      rbind (broadcast_rows rs' b) (fun rs'' => Ok (r' :: rs'')))
  end.

(** [x + b] for a matrix [x] and a vector [b]. *)
Definition add (x b : tensor F) : result (tensor F) :=
  match shape x, shape b with
  | [n; a], [c] =>
      if (a =? c) || (c =? 1) || (a =? 1)
      then rbind (broadcast_rows (rows x) (data b)) (fun rs =>
             Ok (mkTensor [n; if a =? c then a else if c =? 1 then a else c] (concat rs)))
      else Fail RuntimeError
  | _, _ => Fail Unmodelled
  end.

(** [torch.relu(x)] *)
Definition relu (x : tensor F) : tensor F :=
  mkTensor (shape x) (map frelu (data x)).

(** [x * noise] for two tensors of one shape. *)
Definition mul (x noise : tensor F) : tensor F :=
  mkTensor (shape x) (map2 fmul (data x) (data noise)).
End Arithmetic.

(** ** A monad for state and exceptions

    A computation takes the interpreter state and either returns a value or
    raises; both outcomes carry the state reached. *)

Inductive outcome (S A : Type) : Type :=
| Return (a : A) (s : S)
| Raise (e : exn) (s : S).
Arguments Return {S A} a s.
Arguments Raise {S A} e s.

Definition M (S A : Type) : Type := S -> outcome S A.

Definition ret {S A} (a : A) : M S A := fun s => Return a s.

Definition raise {S A} (e : exn) : M S A := fun s => Raise e s.

Definition bind {S A B} (c : M S A) (k : A -> M S B) : M S B :=
  fun s =>
    match c s with
    | Return a s' => k a s'
    | Raise e s' => Raise e s'
    end.

Definition lift {S A} (r : result A) : M S A :=
  match r with
  | Ok a => ret a
  | Fail e => raise e
  end.

Declare Scope monad_scope.
Delimit Scope monad_scope with monad.
Notation "x <- c ;; k" := (bind c (fun x => k))
  (at level 61, c at next level, right associativity) : monad_scope.
Notation "c ;; k" := (bind c (fun _ => k))
  (at level 61, right associativity) : monad_scope.

(** The state an outcome ends in, and what it yields once the state is
    put aside. *)
Definition final_state {S A} (o : outcome S A) : S :=
  match o with
  | Return _ s => s
  | Raise _ s => s
  end.

Definition yield {S A} (o : outcome S A) : result A :=
  match o with
  | Return a _ => Ok a
  | Raise e _ => Fail e
  end.

(** ** Interpreter state *)

(** The generator behind [torch.randint], the initialisers and dropout: an
    arbitrary sequence of raw draws and a position in it. *)
Record RNG : Type := mkRNG {
  stream : N -> N;
  cursor : N
}.

(** [argparse.Namespace(embedding=..., forward=...)] *)
Module Args.
Record t : Type := mk {
  embedding : bool;
  forward : bool
}.
End Args.

Open Scope monad_scope.

Section Program.
Context {F : Type} `{Scalar F}.

(** [nn.Dropout]: its probability and the [training] flag of the module. *)
Record Dropout : Type := mkDropout {
  p : F;
  training : bool
}.

Record ParserModel : Type := mkParserModel {
  n_features : nat;
  n_classes : nat;
  dropout_prob : F;
  embed_size : nat;
  hidden_size : nat;
  embeddings : typed F;
  embed_to_hidden_weight : tensor F;
  embed_to_hidden_bias : tensor F;
  dropout : Dropout;
  hidden_to_logits_weight : tensor F;
  hidden_to_logits_bias : tensor F
}.

(** The notebook's globals [args], [embeddings] and [model] (unbound
    until a cell assigns them), the generator, what has been printed and
    [sys.executable].  [calls] is ghost state: the names of the check
    functions entered so far.  The names imported by the first cell and
    the class [ParserModel] are taken as bound here, as they are in the
    third cell's main block and in a run from top to bottom; [Kernel]
    further down tracks them for cells run on their own. *)
Record World : Type := mkWorld {
  g_args : option Args.t;
  g_embeddings : option (typed F);
  g_model : option ParserModel;
  rng : RNG;
  stdout : list string;
  sys_executable : string;
  calls : list string
}.

Definition with_args (a : Args.t) (s : World) : World :=
  mkWorld (Some a) (g_embeddings s) (g_model s) (rng s)
    (stdout s) (sys_executable s) (calls s).

Definition with_embeddings (e : typed F) (s : World) : World :=
  mkWorld (g_args s) (Some e) (g_model s) (rng s)
    (stdout s) (sys_executable s) (calls s).

Definition with_model (m : ParserModel) (s : World) : World :=
  mkWorld (g_args s) (g_embeddings s) (Some m) (rng s)
    (stdout s) (sys_executable s) (calls s).

Definition with_rng (g : RNG) (s : World) : World :=
  mkWorld (g_args s) (g_embeddings s) (g_model s) g
    (stdout s) (sys_executable s) (calls s).

Definition with_stdout (out : list string) (s : World) : World :=
  mkWorld (g_args s) (g_embeddings s) (g_model s) (rng s)
    out (sys_executable s) (calls s).

Definition with_calls (cs : list string) (s : World) : World :=
  mkWorld (g_args s) (g_embeddings s) (g_model s) (rng s)
    (stdout s) (sys_executable s) cs.

(** Assignments to the globals. *)
Definition set_args (a : Args.t) : M World unit :=
  fun s => Return tt (with_args a s).

Definition set_embeddings (e : typed F) : M World unit :=
  fun s => Return tt (with_embeddings e s).

Definition set_model (m : ParserModel) : M World unit :=
  fun s => Return tt (with_model m s).

Definition print (line : string) : M World unit :=
  fun s => Return tt (with_stdout (stdout s ++ [line]) s).

(** Ghost: record that a check function has been entered. *)
Definition enter (name : string) : M World unit :=
  fun s => Return tt (with_calls (calls s ++ [name]) s).

(** Reading a global raises [NameError] while it is unbound. *)
Definition global {A} (f : World -> option A) : M World A := fun s =>
  match f s with
  | Some a => Return a s
  | None => Raise NameError s
  end.

(** ** Random draws *)

Definition draws (n : nat) : M World (list N) := fun s =>
  let g := rng s in
  Return (map (fun i => stream g (cursor g + N.of_nat i)%N) (seq 0 n))
         (with_rng (mkRNG (stream g) (cursor g + N.of_nat n)%N) s).

(** [torch.randint(low, high, size)] *)
Definition randint (low high : Z) (s : list nat) : M World (tensor Z) :=
  if (low <? high)%Z
  then rs <- draws (numel s);;
       ret (mkTensor s (map (fun r => (low + Z.of_N r mod (high - low))%Z) rs))
  else raise RuntimeError.

(** [init.xavier_uniform_(t)]: the fans of a matrix are its two sizes;
    the bound divides by their sum. *)
Definition xavier_uniform_ (t : tensor F) : M World (tensor F) :=
  match shape t with
  | [] | [_] => raise ValueError
  | [fan_out; fan_in] =>
      if fan_in + fan_out =? 0 then raise ZeroDivisionError
      else rs <- draws (numel (shape t));;
           ret (mkTensor (shape t) (map (xavier_uniform_sample fan_in fan_out) rs))
  | _ => raise Unmodelled
  end.

(** [init.uniform_(t)] *)
Definition uniform_ (t : tensor F) : M World (tensor F) :=
  rs <- draws (numel (shape t));;
  ret (mkTensor (shape t) (map uniform_sample rs)).

(** ** The dropout layer *)

(** [nn.Dropout(p)]; a fresh module is in training mode. *)
Definition Dropout_init (p0 : F) : M World Dropout :=
  if prob_in_range p0 then ret (mkDropout p0 true) else raise ValueError.

(** Whether dropout changes its input at all: in evaluation mode, for a
    probability of zero and on a tensor without elements it returns the
    input as it is. *)
Definition dropout_active (d : Dropout) (n : nat) : bool :=
  training d && negb (prob_is_zero (p d)) && negb (n =? 0).

(** Whether dropout asks the generator: a probability of one multiplies
    by zero without drawing. *)
Definition dropout_draws (d : Dropout) (n : nat) : bool :=
  dropout_active d n && negb (prob_is_one (p d)).

(** [nn.Dropout.forward]: a probability outside [[0, 1]] is refused at
    every call.  When dropout is active the input is multiplied by zero
    for a probability of one, and otherwise by a freshly drawn noise
    tensor of its shape, one raw draw per element; when it is not, the
    input is returned as it is. *)
Definition Dropout_forward (d : Dropout) (x : tensor F) : M World (tensor F) :=
  if prob_in_range (p d)
  then
    if dropout_active d (numel (shape x))
    then
      if prob_is_one (p d)
      then ret (mkTensor (shape x) (map (fun v => fmul v fzero) (data x)))
      else rs <- draws (numel (shape x));;
           ret (mul x (mkTensor (shape x) (map (dropout_noise (p d)) rs)))
    else ret x
  else raise ValueError.

(** ** class ParserModel *)

(** [ParserModel.__init__] *)
Definition ParserModel_init (embeddings0 : typed F)
    (n_features0 hidden_size0 n_classes0 : nat) (dropout_prob0 : F)
  : M World ParserModel :=
  embed_size0 <- lift (size embeddings0 1);;
  w1 <- xavier_uniform_ (zeros [embed_size0 * n_features0; hidden_size0]);;
  b1 <- uniform_ (zeros [hidden_size0]);;
  d <- Dropout_init dropout_prob0;;
  w2 <- xavier_uniform_ (zeros [hidden_size0; n_classes0]);;
  b2 <- uniform_ (zeros [n_classes0]);;
  ret (mkParserModel n_features0 n_classes0 dropout_prob0 embed_size0
         hidden_size0 embeddings0 w1 b1 d w2 b2).

(** [ParserModel(embeddings)] with the default arguments. *)
Definition ParserModel_new (embeddings0 : typed F) : M World ParserModel :=
  ParserModel_init embeddings0 36 200 3 default_dropout_prob.

(** [self.<field>]: the methods run on the object bound to [model]. *)
Definition attr {A} (field : ParserModel -> A) : M World A :=
  self <- global g_model;;
  ret (field self).

Definition embedding_lookup (w : tensor Z) : M World (tensor F) :=
  e <- attr embeddings;;
  x <- lift (getitem e w);;
  n <- lift (size x 0);;
  x <- lift (view x [Z.of_nat n; (-1)%Z]);;
  ret x.

(** [x] has the dtype of [self.embeddings], which indexing and [view]
    keep; the layer parameters and everything computed from them are
    [float32]. *)
Definition forward (w : tensor Z) : M World (tensor F) :=
  x <- embedding_lookup w;;
  e <- attr embeddings;;
  wt <- attr embed_to_hidden_weight;;
  x <- lift (matmul_dtypes (dtype_of e) float32 x wt);;
  b <- attr embed_to_hidden_bias;;
  x <- lift (add x b);;
  let x := relu x in
  d <- attr dropout;;
  x <- Dropout_forward d x;;
  wt <- attr hidden_to_logits_weight;;
  logits <- lift (matmul x wt);;
  b <- attr hidden_to_logits_bias;;
  logits <- lift (add logits b);;
  ret logits.

(** ** The sanity checks and the cells *)

Definition assert (c : bool) : M World unit :=
  if c then ret tt else raise AssertionError.

Definition shape_eqb (s1 s2 : list nat) : bool :=
  if list_eq_dec Nat.eq_dec s1 s2 then true else false.

Definition check_embedding : M World unit :=
  enter "check_embedding";;
  inds <- randint 0 100 [4; 36];;
  selected <- embedding_lookup inds;;
  assert (forallb is_zero (data selected)).

Definition check_forward : M World unit :=
  enter "check_forward";;
  inputs <- randint 0 100 [4; 36];;
  out <- forward inputs;;
  assert (shape_eqb (shape out) [4; 3]).

Definition embedding_passes : string := "Embedding_lookup sanity check passes!".
Definition forward_passes : string := "Forward sanity check passes!".

(** [embeddings = np.zeros((100, 30), dtype=np.float32)] and
    [model = ParserModel(embeddings)], the opening of each main block. *)
Definition make_model : M World unit :=
  set_embeddings (mkTyped float32 (zeros [100; 30]));;
  e <- global g_embeddings;;
  m <- ParserModel_new e;;
  set_model m.

Definition run_embedding_check : M World unit :=
  a <- global g_args;;
  if Args.embedding a
  then check_embedding;; print embedding_passes
  else ret tt.

Definition cell_2 : M World unit := set_args (Args.mk true false).

Definition cell_3 : M World unit :=
  make_model;;
  run_embedding_check;;
  a <- global g_args;;
  if Args.forward a
  then check_forward;; print forward_passes
  else ret tt.

Definition cell_4 : M World unit :=
  make_model;;
  run_embedding_check.

Definition cell_5 : M World unit :=
  make_model;;
  a <- global g_args;;
  if Args.forward a
  then check_forward;; print forward_passes
  else print "No".

Definition cell_6 : M World unit :=
  exe <- (fun s => Return (sys_executable s) s);;
  print exe.

(** Running the notebook from top to bottom; the first cell only imports
    and the last one is empty. *)
Definition notebook : M World unit :=
  cell_2;; cell_3;; cell_4;; cell_5;; cell_6.
End Program.

Arguments Dropout : clear implicits.
Arguments ParserModel : clear implicits.
Arguments World : clear implicits.


(** ** What the class guarantees about a model, and the pipeline in
    element-wise terms *)

Section Specification.
Context {F : Type} `{Scalar F}.

(** Entry [(i, j)] of a matrix in row-major order ([d] off the matrix). *)
Definition entry2 {A} (t : tensor A) (d : A) (i j : nat) : A :=
  match shape t with
  | [_; m] => nth (i * m + j) (data t) d
  | _ => d
  end.

Definition nrows {A} (t : tensor A) : nat := nth 0 (shape t) 0.
Definition ncols {A} (t : tensor A) : nat := nth 1 (shape t) 0.

(** [num_words], the number of rows of the embedding matrix. *)
Definition num_words (m : ParserModel F) : nat := nrows (embeddings m).

(** The shapes [ParserModel.__init__] gives the parameters; training
    changes the values, never the shapes. *)
Record wf_model (m : ParserModel F) : Prop := {
  wf_embeddings_shape : shape (embeddings m) = [num_words m; embed_size m];
  wf_embeddings : wf_tensor (embeddings m);
  wf_w1_shape :
    shape (embed_to_hidden_weight m) = [embed_size m * n_features m; hidden_size m];
  wf_w1 : wf_tensor (embed_to_hidden_weight m);
  wf_b1_shape : shape (embed_to_hidden_bias m) = [hidden_size m];
  wf_b1 : wf_tensor (embed_to_hidden_bias m);
  wf_w2_shape : shape (hidden_to_logits_weight m) = [hidden_size m; n_classes m];
  wf_w2 : wf_tensor (hidden_to_logits_weight m);
  wf_b2_shape : shape (hidden_to_logits_bias m) = [n_classes m];
  wf_b2 : wf_tensor (hidden_to_logits_bias m)
}.

(** Every entry of [w] is a row index of an [n]-row matrix. *)
Definition valid_indices (n : nat) (w : tensor Z) : Prop :=
  Forall (fun i => (0 <= i < Z.of_nat n)%Z) (data w).

(** Row [i] of the embedding matrix, entry by entry. *)
Definition spec_embedding_row (e : tensor F) (i : nat) : list F :=
  map (entry2 e fzero i) (seq 0 (ncols e)).

(** The feature vector of batch row [b]: the embedding rows selected by
    [w[b][0]], ..., [w[b][n_features-1]], one after the other. *)
Definition spec_lookup_row (e : tensor F) (w : tensor Z) (b : nat) : list F :=
  flat_map (fun f => spec_embedding_row e (Z.to_nat (entry2 w 0%Z b f)))
           (seq 0 (ncols w)).

(** An affine layer on row [b] of a batch of [n] rows: entry [j] of
    [x . wt + bias] is the sum of the [x[i] * wt[i][j]], as the matrix
    product accumulates it for that shape and position, plus [bias[j]]. *)
Definition spec_affine (n b : nat) (wt bias : tensor F) (x : list F) : list F :=
  map (fun j =>
         fadd (matmul_entry n (nrows wt) (ncols wt) b j x
                 (map (fun i => entry2 wt fzero i j) (seq 0 (nrows wt))))
              (nth j (data bias) fzero))
      (seq 0 (ncols wt)).

(** Dropout on row [b] of a hidden layer of [n] rows of width [k]: where
    dropout is not active the row is kept; for a probability of one it is
    multiplied by zero; otherwise entry [j] is scaled by the noise made
    from draw [b * k + j] after the generator's position. *)
Definition spec_dropout_row (d : Dropout F) (g : RNG) (n k b : nat) (h : list F) : list F :=
  if dropout_active d (n * k)
  then
    if prob_is_one (p d)
    then map (fun v => fmul v fzero) h
    else map (fun j => fmul (nth j h fzero)
                         (dropout_noise (p d) (stream g (cursor g + N.of_nat (b * k + j))%N)))
             (seq 0 k)
  else h.

(** The logits of row [b] of a batch of [n] rows from its feature vector
    [x]: [ReLU(x . W1 + b1)], dropout, then [. W2 + b2], and nothing
    after. *)
Definition spec_logits_row (m : ParserModel F) (g : RNG) (n b : nat) (x : list F) : list F :=
  let h := map frelu (spec_affine n b (embed_to_hidden_weight m) (embed_to_hidden_bias m) x) in
  let d := spec_dropout_row (dropout m) g n (hidden_size m) b h in
  spec_affine n b (hidden_to_logits_weight m) (hidden_to_logits_bias m) d.

(** The state after dropout on [n] elements: the generator has moved by
    [n] draws when dropout asked it, and not at all otherwise. *)
Definition after_dropout (d : Dropout F) (n : nat) (s : World F) : World F :=
  if dropout_draws d n
  then with_rng (mkRNG (stream (rng s)) (cursor (rng s) + N.of_nat n)%N) s
  else s.

(** The state-free parts of the two methods: what [embedding_lookup]
    computes from the embedding matrix, and the layers of [forward] before
    and after dropout. *)
Definition lookup_fn (e : tensor F) (w : tensor Z) : result (tensor F) :=
  rbind (getitem e w) (fun x =>
  rbind (size x 0) (fun n =>
  view x [Z.of_nat n; (-1)%Z])).

Definition affine (x wt bias : tensor F) : result (tensor F) :=
  rbind (matmul x wt) (fun y => add y bias).

Definition hidden_fn (m : ParserModel F) (w : tensor Z) : result (tensor F) :=
  rbind (lookup_fn (embeddings m) w) (fun x =>
  rbind (matmul_dtypes (dtype_of (embeddings m)) float32 x
           (embed_to_hidden_weight m)) (fun x =>
  rbind (add x (embed_to_hidden_bias m)) (fun x =>
  Ok (relu x)))).

Definition logits_fn (m : ParserModel F) (d : tensor F) : result (tensor F) :=
  affine d (hidden_to_logits_weight m) (hidden_to_logits_bias m).

(** What a run adds to the observable state: the globals [args] and
    [sys.executable] stay, the call log and the output grow. *)
Definition effects (s s' : World F) (new_calls new_out : list string) : Prop :=
  g_args s' = g_args s /\ sys_executable s' = sys_executable s /\
  calls s' = calls s ++ new_calls /\ stdout s' = stdout s ++ new_out.

(** The checks a main block with both checks enters, and what it prints,
    under the flags [a]. *)
Definition gated_calls (a : Args.t) : list string :=
  (if Args.embedding a then ["check_embedding"%string] else []) ++
  (if Args.forward a then ["check_forward"%string] else []).

Definition gated_output (a : Args.t) : list string :=
  (if Args.embedding a then [embedding_passes] else []) ++
  (if Args.forward a then [forward_passes] else []).

(** Two states that differ at most in the generator. *)
Definition frame_rng (s s' : World F) : Prop :=
  g_args s' = g_args s /\ g_embeddings s' = g_embeddings s /\
  g_model s' = g_model s /\ stdout s' = stdout s /\
  sys_executable s' = sys_executable s /\ calls s' = calls s.

(** A computation that keeps a relation between the state it starts in
    and the state it ends in, whether it returns or raises. *)
Definition preserves {A} (R : World F -> World F -> Prop) (c : M (World F) A) : Prop :=
  forall s, R s (final_state (c s)).

End Specification.

(** ** A concrete scalar type

    Integers with exact arithmetic, to run the model on small inputs;
    products are summed from the first index up whatever the shapes, and
    probabilities are counted in hundredths. *)

Definition sum_products {A} (add mul : A -> A -> A) (zero : A) (r c : list A) : A :=
  fold_left (fun acc q => add acc (mul (fst q) (snd q))) (combine r c) zero.

#[export] Instance Scalar_Z : Scalar Z := {|
  fzero := 0%Z;
  fadd := Z.add;
  fmul := Z.mul;
  matmul_entry := fun _ _ _ _ _ => sum_products Z.add Z.mul 0%Z;
  frelu := Z.max 0;
  is_zero := Z.eqb 0;
  is_zero_fzero := eq_refl;
  prob_in_range := fun q => ((0 <=? q) && (q <=? 100))%Z;
  prob_is_zero := Z.eqb 0;
  prob_is_one := Z.eqb 100;
  default_dropout_prob := 50%Z;
  default_dropout_prob_ok := eq_refl;
  dropout_noise := fun _ r => (2 * Z.of_N (r mod 2))%Z;
  xavier_uniform_sample := fun _ _ r => (Z.of_N (r mod 5) - 2)%Z;
  uniform_sample := fun r => Z.of_N (r mod 2)
|}.

(** A two-feature model over a vocabulary of three words with embeddings
    of width two, three hidden units and two classes. *)
Definition tiny_model (train : bool) : ParserModel Z :=
  mkParserModel 2 2 50%Z 2 3
    (mkTyped float32 (mkTensor [3; 2] [1; 2; 3; 4; 5; 6]%Z))
    (mkTensor [4; 3] [1; 0; -1; 0; 1; 0; 2; 0; 1; -1; 1; 0]%Z)
    (mkTensor [3] [0; 1; -30]%Z)
    (mkDropout 50%Z train)
    (mkTensor [3; 2] [1; 2; 0; 1; 3; 0]%Z)
    (mkTensor [2] [10; 20]%Z).

Definition world_with (m : option (ParserModel Z)) (draw : N -> N) : World Z :=
  mkWorld None None m (mkRNG draw 0%N) [] "python"%string [].

(** States holding the tiny model in evaluation mode, over two different
    generators, and a state in which no cell has run yet. *)
Definition s_tiny : World Z := world_with (Some (tiny_model false)) (fun n => n).
Definition s_other : World Z :=
  world_with (Some (tiny_model false)) (fun n => (3 * n + 1)%N).
Definition s_fresh : World Z := world_with None (fun n => n).

(** Index tensors: two windows, two and three windows sharing the second
    row of the former, an empty batch, and a [(4, 36)] batch of zeros. *)
Definition w_tiny : tensor Z := mkTensor [2; 2] [0; 2; 1; 1]%Z.
Definition w_other : tensor Z := mkTensor [3; 2] [2; 2; 1; 1; 0; 0]%Z.
Definition w_empty : tensor Z := mkTensor [0; 2] [].
Definition w_zero : tensor Z := mkTensor [4; 36] (repeat 0%Z 144).

(** The embedding matrix of the tiny model as a [float64] array, the
    default dtype of NumPy, and the tiny model over it. *)
Definition tiny_embeddings_float64 : typed Z :=
  mkTyped float64 (untyped (embeddings (tiny_model false))).

Definition tiny_model_float64 : ParserModel Z :=
  mkParserModel 2 2 50%Z 2 3
    tiny_embeddings_float64
    (embed_to_hidden_weight (tiny_model false))
    (embed_to_hidden_bias (tiny_model false))
    (dropout (tiny_model false))
    (hidden_to_logits_weight (tiny_model false))
    (hidden_to_logits_bias (tiny_model false)).

Definition s_float64 : World Z :=
  world_with (Some tiny_model_float64) (fun n => n).

(** ** The scalars of [float32]

    IEEE 754 binary32 arithmetic as the standard library specifies it
    ([SpecFloat], rounding to nearest even): sums and products are rounded
    to twenty-four significant bits, so that addition is not associative
    ([(1 + 2^24) + 1] is [2^24] and [(1 + 1) + 2^24] is [2^24 + 2]) and
    the order in which a matrix product accumulates shows in the result.
    A kernel is chosen by the shapes: here the product of a single row
    accumulates from the first index up, and the product of a larger batch
    keeps two partial sums, of the products at even and at odd indices, as
    a unit with two vector lanes does, and adds them at the end. *)








(** ** Running cells one at a time

    A notebook lets its cells be run one at a time, in any order and any
    number of times (the execution counts recorded in the file are 1, 2,
    6, 13, 14 and 11).  Besides the globals of [World] the kernel then
    holds, or does not hold yet, the names that the first cell imports and
    the class that the third cell defines; a cell that reads one of them
    before it is bound raises [NameError] there. *)

Inductive cell : Type := Cell1 | Cell2 | Cell3 | Cell4 | Cell5 | Cell6.

Section Cells.
Context {F : Type} `{Scalar F}.

Record Kernel : Type := mkKernel {
  world : World F;
  imported : bool;
  class_defined : bool
}.

(** A computation on the globals, run in a kernel. *)
Definition in_world {A} (c : M (World F) A) : M Kernel A := fun k =>
  match c (world k) with
  | Return a s => Return a (mkKernel s (imported k) (class_defined k))
  | Raise e s => Raise e (mkKernel s (imported k) (class_defined k))
  end.

(** The statements [import ...] of the first cell and
    [class ParserModel(nn.Module): ...] of the third. *)
Definition import_all : M Kernel unit :=
  fun k => Return tt (mkKernel (world k) true (class_defined k)).

Definition define_class : M Kernel unit :=
  fun k => Return tt (mkKernel (world k) (imported k) true).

(** Reading an imported name, and reading [ParserModel]. *)
Definition need_imports : M Kernel unit :=
  fun k => if imported k then Return tt k else Raise NameError k.

Definition need_class : M Kernel unit :=
  fun k => if class_defined k then Return tt k else Raise NameError k.

(** A main block of the fourth or fifth cell: [np.zeros] is read first,
    then [embeddings] is assigned, then [ParserModel] is read. *)
Definition later_main_block (c : M (World F) unit) : M Kernel unit :=
  need_imports;;
  fun k =>
    if class_defined k then in_world c k
    else (in_world (set_embeddings (mkTyped float32 (zeros [100; 30])));;
          need_class) k.

Definition run_cell (c : cell) : M Kernel unit :=
  match c with
  | Cell1 => import_all
  | Cell2 => need_imports;; in_world cell_2
  | Cell3 => need_imports;; define_class;; in_world cell_3
  | Cell4 => later_main_block cell_4
  | Cell5 => later_main_block cell_5
  | Cell6 => in_world cell_6
  end.

Fixpoint run_cells (cs : list cell) : M Kernel unit :=
  match cs with
  | [] => ret tt
  | c :: cs' => run_cell c;; run_cells cs'
  end.
End Cells.

Arguments Kernel : clear implicits.

(** The checks one cell enters under the flags [a], and the checks a
    sequence of cells enters when it starts under the flags [a]. *)
Definition cell_calls (a : Args.t) (c : cell) : list string :=
  match c with
  | Cell1 | Cell2 | Cell6 => []
  | Cell3 => gated_calls a
  | Cell4 => if Args.embedding a then ["check_embedding"%string] else []
  | Cell5 => if Args.forward a then ["check_forward"%string] else []
  end.

Fixpoint cells_calls (a : Args.t) (cs : list cell) : list string :=
  match cs with
  | [] => []
  | Cell2 :: cs' => cells_calls (Args.mk true false) cs'
  | c :: cs' => cell_calls a c ++ cells_calls a cs'
  end.

(** Whether every fourth and fifth cell of a sequence comes after a third
    one, or the class is defined from the start. *)
Fixpoint cells_ready (defined : bool) (cs : list cell) : bool :=
  match cs with
  | [] => true
  | Cell3 :: cs' => cells_ready true cs'
  | Cell4 :: cs' | Cell5 :: cs' => defined && cells_ready defined cs'
  | _ :: cs' => cells_ready defined cs'
  end.

(** [i] brought into [[0, n)] when it counts from the end. *)
Definition wrap_index (n : nat) (i : Z) : Z :=
  if (i <? 0)%Z then (i + Z.of_nat n)%Z else i.

(** A model over a hundred one-dimensional embeddings equal to one, with
    one hidden unit, [nf] features and [nc] classes, in evaluation mode. *)
Definition unit_model (nf nc : nat) : ParserModel Z :=
  mkParserModel nf nc 0%Z 1 1
    (mkTyped float32 (mkTensor [100; 1] (repeat 1%Z 100)))
    (mkTensor [1 * nf; 1] (repeat 1%Z (1 * nf)))
    (mkTensor [1] [0%Z])
    (mkDropout 0%Z false)
    (mkTensor [1; nc] (repeat 1%Z nc))
    (mkTensor [nc] (repeat 0%Z nc)).

Definition s_unit (nf nc : nat) : World Z :=
  world_with (Some (unit_model nf nc)) (fun n => n).

(** More index tensors: a vector of three indices, a window holding an
    index past the last row, one counting from the end, and one of three
    features. *)
Definition w_vector : tensor Z := mkTensor [3] [2; 0; 1]%Z.
Definition w_bad : tensor Z := mkTensor [1; 2] [0; 3]%Z.
Definition w_negative : tensor Z := mkTensor [1; 2] [-1; -3]%Z.
Definition w_three : tensor Z := mkTensor [1; 3] [0; 1; 2]%Z.

(** The tiny model with other numbers in its scalar fields, and a state
    in which both flags are set and no model is bound. *)
Definition tiny_model_relabelled : ParserModel Z :=
  mkParserModel 7 9 1%Z 5 11
    (embeddings (tiny_model false))
    (embed_to_hidden_weight (tiny_model false))
    (embed_to_hidden_bias (tiny_model false))
    (dropout (tiny_model false))
    (hidden_to_logits_weight (tiny_model false))
    (hidden_to_logits_bias (tiny_model false)).

Definition s_relabelled : World Z :=
  world_with (Some tiny_model_relabelled) (fun n => n).

Definition s_flags : World Z :=
  mkWorld (Some (Args.mk true true)) None None (mkRNG (fun n => n) 0%N)
    [] "python"%string [].

(** Kernels after the first cell only, and after the first cell with both
    flags set by hand. *)
Definition k_imported : Kernel Z := mkKernel s_fresh true false.
Definition k_flags : Kernel Z := mkKernel s_flags true false.

(** * Proofs *)

Unset Implicit Arguments.

(** ** Lists: blocks of a row-major buffer *)

Section ListFacts.
Context {A B C : Type}.

Lemma map2_map_map {X} (f : A -> B -> C) (g : X -> A) (h : X -> B) (l : list X) :
  map2 f (map g l) (map h l) = map (fun x => f (g x) (h x)) l.
Proof.
  unfold map2. induction l as [|x l IH]; simpl; [reflexivity|].
  now rewrite IH.
Qed.

Lemma combine_app_eq (a1 a2 : list A) (b1 b2 : list B) :
  length a1 = length b1 ->
  combine (a1 ++ a2) (b1 ++ b2) = combine a1 b1 ++ combine a2 b2.
Proof.
  revert b1. induction a1 as [|x a1 IH]; intros [|y b1] Hlen;
    simpl in *; try discriminate; [reflexivity|].
  f_equal. apply IH. now injection Hlen.
Qed.

Lemma map2_app (f : A -> B -> C) (a1 a2 : list A) (b1 b2 : list B) :
  length a1 = length b1 ->
  map2 f (a1 ++ a2) (b1 ++ b2) = map2 f a1 b1 ++ map2 f a2 b2.
Proof.
  intros Hlen. unfold map2.
  rewrite combine_app_eq by exact Hlen. apply map_app.
Qed.

Lemma map2_flat_map {X} (f : A -> B -> C) (r : X -> list A) (q : X -> list B) (l : list X) :
  (forall x, In x l -> length (r x) = length (q x)) ->
  map2 f (flat_map r l) (flat_map q l) = flat_map (fun x => map2 f (r x) (q x)) l.
Proof.
  induction l as [|x l IH]; intros Hlen; simpl; [reflexivity|].
  rewrite map2_app by (apply Hlen; now left).
  rewrite IH; [reflexivity|]. intros y Hy. apply Hlen. now right.
Qed.

Lemma map_flat_map {X} (f : A -> B) (g : X -> list A) (l : list X) :
  map f (flat_map g l) = flat_map (fun x => map f (g x)) l.
Proof.
  induction l as [|x l IH]; simpl; [reflexivity|].
  now rewrite map_app, IH.
Qed.

Lemma flat_map_flat_map {X} (g : A -> list B) (h : X -> list A) (l : list X) :
  flat_map g (flat_map h l) = flat_map (fun x => flat_map g (h x)) l.
Proof.
  induction l as [|x l IH]; simpl; [reflexivity|].
  now rewrite flat_map_app, IH.
Qed.

Lemma flat_map_ext_in {X} (f g : X -> list A) (l : list X) :
  (forall x, In x l -> f x = g x) -> flat_map f l = flat_map g l.
Proof.
  induction l as [|x l IH]; intros Hfg; simpl; [reflexivity|].
  rewrite (Hfg x) by now left.
  rewrite IH; [reflexivity|]. intros y Hy. apply Hfg. now right.
Qed.

End ListFacts.

Section Blocks.
Context {A : Type}.

Lemma seq_offset (o k : nat) : seq o k = map (fun j => o + j) (seq 0 k).
Proof.
  revert o. induction k as [|k IH]; intros o; simpl; [reflexivity|].
  f_equal; [lia|].
  rewrite <- (seq_shift k 0), map_map, (IH (S o)).
  apply map_ext. intros j. lia.
Qed.

Lemma seq_blocks (k n s : nat) :
  seq (s * k) (n * k) = flat_map (fun b => map (fun j => b * k + j) (seq 0 k)) (seq s n).
Proof.
  revert s. induction n as [|n IH]; intros s; simpl; [reflexivity|].
  rewrite seq_app. f_equal.
  - apply seq_offset.
  - replace (s * k + k) with (S s * k) by lia. apply IH.
Qed.

Lemma list_nth_seq (d : A) (l : list A) :
  l = map (fun j => nth j l d) (seq 0 (length l)).
Proof.
  induction l as [|a l IH]; simpl; [reflexivity|].
  f_equal. rewrite <- seq_shift, map_map. exact IH.
Qed.

Lemma skipn_cons_nth (d : A) (l : list A) (o : nat) :
  o < length l -> skipn o l = nth o l d :: skipn (S o) l.
Proof.
  revert o. induction l as [|a l IH]; intros o Ho; simpl in Ho; [lia|].
  destruct o as [|o]; [reflexivity|].
  simpl. apply IH. lia.
Qed.

Lemma firstn_skipn_nth (d : A) (l : list A) (k o : nat) :
  o + k <= length l ->
  firstn k (skipn o l) = map (fun c => nth (o + c) l d) (seq 0 k).
Proof.
  revert o. induction k as [|k IH]; intros o Hk; [reflexivity|].
  rewrite (skipn_cons_nth d) by lia.
  cbn [firstn seq map]. f_equal; [f_equal; lia|].
  rewrite IH by lia.
  rewrite <- seq_shift, map_map.
  apply map_ext. intros c. f_equal. lia.
Qed.

(** A buffer of [n * k] elements read block by block. *)
Lemma list_blocks (d : A) (k n : nat) (l : list A) :
  length l = n * k ->
  l = flat_map (fun b => map (fun j => nth (b * k + j) l d) (seq 0 k)) (seq 0 n).
Proof.
  intros Hlen.
  rewrite (list_nth_seq d l) at 1.
  rewrite Hlen. change (seq 0 (n * k)) with (seq (0 * k) (n * k)).
  rewrite seq_blocks, map_flat_map.
  apply flat_map_ext_in. intros b _. now rewrite map_map.
Qed.

Lemma chunks_concat (k : nat) (rs : list (list A)) :
  Forall (fun r => length r = k) rs ->
  chunks k (length rs) (concat rs) = rs.
Proof.
  induction 1 as [|r rs Hr _ IH]; simpl; [reflexivity|].
  rewrite firstn_app, skipn_app, Hr, Nat.sub_diag.
  rewrite <- Hr at 1 3. rewrite firstn_all, skipn_all.
  simpl. now rewrite app_nil_r, IH.
Qed.

(** The rows of a matrix whose buffer is given row by row. *)
Lemma rows_flat_map (r : nat -> list A) (n k : nat) :
  (forall b, b < n -> length (r b) = k) ->
  rows (mkTensor [n; k] (flat_map r (seq 0 n))) = map r (seq 0 n).
Proof.
  intros Hk. unfold rows. simpl.
  rewrite flat_map_concat_map.
  replace (chunks k n) with (chunks (A := A) k (length (map r (seq 0 n))))
    by now rewrite length_map, length_seq.
  apply chunks_concat.
  apply Forall_forall. intros x Hx.
  apply in_map_iff in Hx. destruct Hx as [b [<- Hb]].
  apply in_seq in Hb. apply Hk. lia.
Qed.

(** Any well-formed matrix is given row by row by its entries. *)
Lemma tensor_by_entries (d : A) (t : tensor A) (n k : nat) :
  shape t = [n; k] -> wf_tensor t ->
  t = mkTensor [n; k] (flat_map (fun b => map (entry2 t d b) (seq 0 k)) (seq 0 n)).
Proof.
  intros Hs Hwf. destruct t as [s l]. simpl in Hs. subst s.
  unfold wf_tensor in Hwf. simpl in Hwf.
  f_equal. unfold entry2. simpl.
  apply list_blocks. lia.
Qed.
End Blocks.

(** ** Indexing and [view] *)

Section IndexFacts.
Context {A : Type}.

Lemma flat_map_map {X Y} (g : Y -> list A) (h : X -> Y) (l : list X) :
  flat_map g (map h l) = flat_map (fun x => g (h x)) l.
Proof.
  induction l as [|x l IH]; simpl; [reflexivity|]. now rewrite IH.
Qed.

Lemma norm_index_valid (n : nat) (i : Z) :
  (0 <= i < Z.of_nat n)%Z -> norm_index n i = Some (Z.to_nat i).
Proof.
  intros Hi. unfold norm_index.
  replace (0 <=? i)%Z with true by (symmetry; apply Z.leb_le; lia).
  replace (i <? Z.of_nat n)%Z with true by (symmetry; apply Z.ltb_lt; lia).
  reflexivity.
Qed.

Lemma gather_valid (e : tensor A) (n : nat) (rest : list nat) (idx : list Z) :
  shape e = n :: rest ->
  Forall (fun i => (0 <= i < Z.of_nat n)%Z) idx ->
  gather e idx =
    Some (map (fun i => slice_row (numel rest) (data e) (Z.to_nat i)) idx).
Proof.
  intros Hs. induction 1 as [|i idx Hi _ IH]; simpl; [reflexivity|].
  unfold select_row. rewrite Hs, norm_index_valid by exact Hi.
  rewrite IH. reflexivity.
Qed.

Lemma slice_row_entries (d : A) (e : tensor A) (n k j : nat) :
  shape e = [n; k] -> wf_tensor e -> j < n ->
  slice_row (numel [k]) (data e) j = map (entry2 e d j) (seq 0 k).
Proof.
  intros Hs Hwf Hj. unfold slice_row, entry2, wf_tensor in *.
  rewrite Hs in *. simpl in *. rewrite !Nat.mul_1_r in *.
  apply firstn_skipn_nth. nia.
Qed.

(** [t.view(n, -1)] on a tensor of [n * k] elements with [n] positive. *)
Lemma view_flatten (t : tensor A) (n k : nat) :
  1 <= n -> numel (shape t) = n * k ->
  view t [Z.of_nat n; (-1)%Z] = Ok (mkTensor [n; k] (data t)).
Proof.
  intros Hn Hnum. unfold view, infer_size, known_size. rewrite Hnum.
  assert (Hlt : (Z.of_nat n <? -1)%Z = false) by (apply Z.ltb_ge; lia).
  assert (Hne : (Z.of_nat n =? -1)%Z = false) by (apply Z.eqb_neq; lia).
  cbn [existsb fold_right count_occ map]. rewrite Hlt, Hne.
  destruct (Z.eq_dec (Z.of_nat n) (-1)) as [Heq|_]; [lia|].
  destruct (Z.eq_dec (-1) (-1)) as [_|Hneq]; [|congruence].
  change (-1 <? -1)%Z with false. change (-1 =? -1)%Z with true.
  cbn [orb]. rewrite Nat2Z.id, Nat.mul_1_r.
  replace (0 <? n) with true by (symmetry; apply Nat.ltb_lt; lia).
  replace (n * k mod n =? 0) with true
    by (symmetry; apply Nat.eqb_eq; rewrite Nat.mul_comm; apply Nat.Div0.mod_mul).
  rewrite orb_true_r.
  replace (n =? 0) with false by (symmetry; apply Nat.eqb_neq; lia).
  replace (n * k / n) with k by (rewrite Nat.mul_comm, Nat.div_mul; lia).
  reflexivity.
Qed.

(** [t.view(0, -1)] is refused whatever [t] holds. *)
Lemma view_empty_batch (t : tensor A) :
  view t [0%Z; (-1)%Z] = Fail RuntimeError.
Proof.
  unfold view, infer_size, known_size.
  cbn [existsb fold_right count_occ map].
  change (0 <? -1)%Z with false. change (-1 <? -1)%Z with false.
  change (0 =? -1)%Z with false. change (-1 =? -1)%Z with true.
  destruct (Z.eq_dec 0 (-1)) as [Heq|_]; [discriminate|].
  destruct (Z.eq_dec (-1) (-1)) as [_|Hneq]; [|congruence].
  cbn. destruct (numel (shape t)); reflexivity.
Qed.
End IndexFacts.

(** ** The layers, row by row *)

Section LayerFacts.
Context {F : Type} `{Scalar F}.

Lemma rows_by_entries {A} (d : A) (t : tensor A) (n k : nat) :
  shape t = [n; k] -> wf_tensor t ->
  rows t = map (fun b => map (entry2 t d b) (seq 0 k)) (seq 0 n).
Proof.
  intros Hs Hwf.
  etransitivity; [apply f_equal, (tensor_by_entries d t n k Hs Hwf)|].
  apply rows_flat_map. intros b _. now rewrite length_map, length_seq.
Qed.

(** On valid indices the lookup yields, for each batch row, the selected
    embedding rows one after the other. *)
Lemma lookup_fn_ok (e : tensor F) (w : tensor Z) (nw es B nf : nat) :
  shape e = [nw; es] -> wf_tensor e ->
  shape w = [B; nf] -> wf_tensor w ->
  valid_indices nw w -> 1 <= B ->
  lookup_fn e w =
    Ok (mkTensor [B; nf * es] (flat_map (spec_lookup_row e w) (seq 0 B))).
Proof.
  intros Hse Hwe Hsw Hww Hvalid HB. unfold lookup_fn, getitem.
  rewrite Hse, (gather_valid e nw [es] (data w) Hse Hvalid). cbn [rbind].
  unfold size. rewrite Hsw. cbn [app nth_error shape rbind].
  rewrite (view_flatten _ B (nf * es)); [|exact HB|simpl; lia].
  cbn [data]. do 2 f_equal.
  assert (Hlen : length (data w) = B * nf).
  { unfold wf_tensor in Hww. rewrite Hsw in Hww. simpl in Hww. lia. }
  rewrite <- flat_map_concat_map.
  rewrite (list_blocks 0%Z nf B (data w) Hlen) at 1.
  rewrite flat_map_flat_map.
  apply flat_map_ext_in. intros b Hb. apply in_seq in Hb.
  rewrite flat_map_map. unfold spec_lookup_row, ncols, entry2.
  rewrite Hsw. cbn [nth].
  apply flat_map_ext_in. intros f Hf. apply in_seq in Hf.
  unfold spec_embedding_row, ncols. rewrite Hse. cbn [nth].
  assert (Hin : (0 <= nth (b * nf + f) (data w) 0 < Z.of_nat nw)%Z).
  { unfold valid_indices in Hvalid. rewrite Forall_forall in Hvalid.
    apply Hvalid, nth_In. nia. }
  apply slice_row_entries with (n := nw); [exact Hse|exact Hwe|lia].
Qed.

Lemma column_by_entries (wt : tensor F) (k m j : nat) :
  shape wt = [k; m] -> wf_tensor wt -> j < m ->
  column (rows wt) j = map (fun i => entry2 wt fzero i j) (seq 0 k).
Proof.
  intros Hs Hwf Hj. unfold column.
  rewrite (rows_by_entries fzero wt k m Hs Hwf), flat_map_map.
  rewrite flat_map_concat_map.
  replace (map (fun i => entry2 wt fzero i j) (seq 0 k))
    with (concat (map (fun i => [entry2 wt fzero i j]) (seq 0 k))).
  2:{ rewrite <- flat_map_concat_map. clear. induction (seq 0 k) as [|i l IH];
      simpl; [reflexivity|]. now rewrite IH. }
  f_equal. apply map_ext. intros i.
  rewrite (firstn_skipn_nth (entry2 wt fzero i 0)).
  2:{ rewrite length_map, length_seq. lia. }
  cbn [seq map]. rewrite (map_nth (entry2 wt fzero i) (seq 0 m) 0 (j + 0)).
  rewrite seq_nth by lia. f_equal. f_equal. lia.
Qed.

Lemma broadcast_rows_ok (rs : list (list F)) (b : list F) :
  Forall (fun r => length r = length b) rs ->
  broadcast_rows rs b = Ok (map (fun r => map2 fadd r b) rs).
Proof.
  induction 1 as [|r rs Hr _ IH]; simpl; [reflexivity|].
  unfold broadcast_row. rewrite Hr, Nat.eqb_refl. cbn [rbind].
  rewrite IH. reflexivity.
Qed.

Lemma nth_map_seq {A} (f : nat -> A) (d : A) (n b : nat) :
  b < n -> nth b (map f (seq 0 n)) d = f b.
Proof.
  intros Hb. rewrite (nth_indep _ d (f 0)) by now rewrite length_map, length_seq.
  rewrite (map_nth f (seq 0 n) 0 b), seq_nth by exact Hb. reflexivity.
Qed.

(** [x . wt] on a matrix given row by row: entry [(b, j)] is made from
    row [b] of [x] and column [j] of [wt]. *)
Lemma matmul_rows (wt : tensor F) (r : nat -> list F) (n k m : nat) :
  shape wt = [k; m] -> wf_tensor wt ->
  (forall b, b < n -> length (r b) = k) ->
  matmul (mkTensor [n; k] (flat_map r (seq 0 n))) wt =
    Ok (mkTensor [n; m]
          (flat_map (fun b => map (fun j => matmul_entry n k m b j (r b)
                                              (map (fun i => entry2 wt fzero i j) (seq 0 k)))
                                  (seq 0 m))
                    (seq 0 n))).
Proof.
  intros Hs Hwf Hr. unfold matmul. cbn [shape]. rewrite Hs, Nat.eqb_refl.
  rewrite (rows_flat_map r n k Hr). do 2 f_equal.
  apply flat_map_ext_in. intros b Hb. apply in_seq in Hb.
  rewrite nth_map_seq by lia.
  apply map_ext_in. intros j Hj. apply in_seq in Hj.
  f_equal. apply (column_by_entries wt k m j Hs Hwf). lia.
Qed.

(** [x + bias] on a matrix given row by row. *)
Lemma add_rows (bias : tensor F) (r : nat -> list F) (n m : nat) :
  shape bias = [m] -> wf_tensor bias ->
  (forall b, b < n -> length (r b) = m) ->
  add (mkTensor [n; m] (flat_map r (seq 0 n))) bias =
    Ok (mkTensor [n; m] (flat_map (fun b => map2 fadd (r b) (data bias)) (seq 0 n))).
Proof.
  intros Hsb Hwb Hr.
  assert (Hlb : length (data bias) = m).
  { unfold wf_tensor in Hwb. rewrite Hsb in Hwb. simpl in Hwb. lia. }
  unfold add. cbn [shape]. rewrite Hsb, Nat.eqb_refl. cbn [orb].
  rewrite (rows_flat_map r n m Hr).
  rewrite broadcast_rows_ok.
  2:{ apply Forall_forall. intros x Hx. apply in_map_iff in Hx.
      destruct Hx as [b [<- Hb]]. apply in_seq in Hb. rewrite Hlb. apply Hr. lia. }
  cbn [rbind]. now rewrite map_map, <- flat_map_concat_map.
Qed.

(** [x . wt + bias] on a matrix given row by row. *)
Lemma affine_rows (wt bias : tensor F) (r : nat -> list F) (n k m : nat) :
  shape wt = [k; m] -> wf_tensor wt ->
  shape bias = [m] -> wf_tensor bias ->
  (forall b, b < n -> length (r b) = k) ->
  affine (mkTensor [n; k] (flat_map r (seq 0 n))) wt bias =
    Ok (mkTensor [n; m] (flat_map (fun b => spec_affine n b wt bias (r b)) (seq 0 n))).
Proof.
  intros Hs Hwf Hsb Hwb Hr.
  assert (Hlb : length (data bias) = m).
  { unfold wf_tensor in Hwb. rewrite Hsb in Hwb. simpl in Hwb. lia. }
  unfold affine. rewrite (matmul_rows wt r n k m Hs Hwf Hr). cbn [rbind].
  rewrite (add_rows bias _ n m Hsb Hwb)
    by (intros b _; now rewrite length_map, length_seq).
  do 2 f_equal. apply flat_map_ext_in. intros b Hb.
  unfold spec_affine, ncols, nrows. rewrite Hs. cbn [nth].
  rewrite (list_nth_seq fzero (data bias)) at 1. rewrite Hlb.
  apply map2_map_map.
Qed.

Lemma spec_affine_length (n b : nat) (wt bias : tensor F) (x : list F) :
  length (spec_affine n b wt bias x) = ncols wt.
Proof. unfold spec_affine. now rewrite length_map, length_seq. Qed.

Lemma relu_rows (s : list nat) (r : nat -> list F) (l : list nat) :
  relu (mkTensor s (flat_map r l)) =
    mkTensor s (flat_map (fun b => map frelu (r b)) l).
Proof. unfold relu. cbn [shape data]. now rewrite map_flat_map. Qed.
End LayerFacts.

(** ** Running the methods *)

Section RunFacts.
Context {F : Type} `{Scalar F}.

Lemma frame_rng_refl (s : World F) : frame_rng s s.
Proof. unfold frame_rng. tauto. Qed.

Lemma frame_rng_trans (s1 s2 s3 : World F) :
  frame_rng s1 s2 -> frame_rng s2 s3 -> frame_rng s1 s3.
Proof.
  unfold frame_rng. intros (?&?&?&?&?&?) (?&?&?&?&?&?).
  repeat split; congruence.
Qed.

Lemma frame_rng_with_rng (g : RNG) (s : World F) : frame_rng s (with_rng g s).
Proof. unfold frame_rng. simpl. tauto. Qed.

Lemma preserves_ret {A} (a : A) : preserves (F := F) frame_rng (ret a).
Proof. intros s. apply frame_rng_refl. Qed.

Lemma preserves_raise {A} (e : exn) : preserves (F := F) (A := A) frame_rng (raise e).
Proof. intros s. apply frame_rng_refl. Qed.

Lemma preserves_lift {A} (r : result A) : preserves (F := F) frame_rng (lift r).
Proof. destruct r; [apply preserves_ret|apply preserves_raise]. Qed.

Lemma preserves_bind {A B} (c : M (World F) A) (k : A -> M (World F) B) :
  preserves (F := F) frame_rng c -> (forall a, preserves (F := F) frame_rng (k a)) ->
  preserves (F := F) frame_rng (bind c k).
Proof.
  intros Hc Hk s. unfold bind. specialize (Hc s).
  destruct (c s) as [a s'|e s']; simpl in *; [|exact Hc].
  eapply frame_rng_trans; [exact Hc|apply Hk].
Qed.

Lemma preserves_global {A} (f : World F -> option A) : preserves (F := F) frame_rng (global f).
Proof. intros s. unfold global. destruct (f s); apply frame_rng_refl. Qed.

Lemma preserves_attr {A} (f : ParserModel F -> A) : preserves (F := F) frame_rng (attr f).
Proof.
  apply preserves_bind; [apply preserves_global|intros; apply preserves_ret].
Qed.

Lemma preserves_draws (n : nat) : preserves (F := F) frame_rng (draws n).
Proof. intros s. apply frame_rng_with_rng. Qed.

Lemma preserves_Dropout_forward (d : Dropout F) (x : tensor F) :
  preserves (F := F) frame_rng (Dropout_forward d x).
Proof.
  unfold Dropout_forward.
  destruct (prob_in_range (p d)); [|apply preserves_raise].
  destruct (dropout_active d (numel (shape x))); [|apply preserves_ret].
  destruct (prob_is_one (p d)); [apply preserves_ret|].
  apply preserves_bind; [apply preserves_draws|intros; apply preserves_ret].
Qed.

Ltac frame_step :=
  match goal with
  | |- preserves _ (bind _ _) => apply preserves_bind; [|intros]
  | |- preserves _ (ret _) => apply preserves_ret
  | |- preserves _ (raise _) => apply preserves_raise
  | |- preserves _ (lift _) => apply preserves_lift
  | |- preserves _ (attr _) => apply preserves_attr
  | |- preserves _ (global _) => apply preserves_global
  | |- preserves _ (draws _) => apply preserves_draws
  | |- preserves _ (Dropout_forward _ _) => apply preserves_Dropout_forward
  | |- preserves _ (if _ then _ else _) => destruct_if_frame
  end
with destruct_if_frame :=
  match goal with
  | |- preserves _ (if ?c then _ else _) => destruct c
  end.

Lemma preserves_embedding_lookup (w : tensor Z) :
  preserves (F := F) frame_rng (embedding_lookup w).
Proof. unfold embedding_lookup. repeat frame_step. Qed.

Lemma preserves_forward (w : tensor Z) : preserves (F := F) frame_rng (forward w).
Proof.
  unfold forward.
  repeat (frame_step || apply preserves_embedding_lookup).
Qed.

Lemma bind_lift_ok {A B} (a : A) (k : A -> M (World F) B) (s : World F) :
  bind (lift (Ok a)) k s = k a s.
Proof. reflexivity. Qed.

Lemma bind_attr {A B} (f : ParserModel F -> A) (k : A -> M (World F) B)
    (s : World F) (m : ParserModel F) :
  g_model s = Some m -> bind (attr f) k s = k (f m) s.
Proof. intros Hm. unfold attr, global, bind. now rewrite Hm. Qed.

Lemma bind_cong {A B} (c c' : M (World F) A) (k : A -> M (World F) B) (s : World F) :
  c s = c' s -> bind c k s = bind c' k s.
Proof. intros Hc. unfold bind. now rewrite Hc. Qed.

Lemma bind_ext_frame {A B} (c : M (World F) A) (k k' : A -> M (World F) B) (s : World F) :
  preserves frame_rng c ->
  (forall a s', frame_rng s s' -> k a s' = k' a s') ->
  bind c k s = bind c k' s.
Proof.
  intros Hc Hk. unfold bind. specialize (Hc s).
  destruct (c s) as [a s'|e s']; [apply Hk; exact Hc|reflexivity].
Qed.

(** [embedding_lookup] reads the embedding matrix of the bound model and
    nothing else. *)
Lemma embedding_lookup_run (w : tensor Z) (s : World F) (m : ParserModel F) :
  g_model s = Some m ->
  embedding_lookup w s = lift (lookup_fn (embeddings m) w) s.
Proof.
  intros Hm. unfold embedding_lookup, lookup_fn.
  rewrite (bind_attr _ _ s m Hm).
  destruct (getitem (embeddings m) w) as [x|e]; [|reflexivity].
  rewrite bind_lift_ok. cbn [rbind].
  destruct (size x 0) as [n|e]; [|reflexivity].
  rewrite bind_lift_ok. cbn [rbind].
  destruct (view x [Z.of_nat n; (-1)%Z]) as [y|e]; reflexivity.
Qed.

Lemma embedding_lookup_unbound (w : tensor Z) (s : World F) :
  g_model s = None -> embedding_lookup w s = Raise NameError s.
Proof.
  intros Hm. unfold embedding_lookup, attr, global, bind. now rewrite Hm.
Qed.

(** [forward] is the hidden layer, dropout, and the output layer. *)
Lemma forward_run (w : tensor Z) (s : World F) (m : ParserModel F) :
  g_model s = Some m ->
  forward w s =
    match hidden_fn m w with
    | Fail e => Raise e s
    | Ok h => bind (Dropout_forward (dropout m) h) (fun d => lift (logits_fn m d)) s
    end.
Proof.
  intros Hm. unfold forward, hidden_fn, affine.
  rewrite (bind_cong _ _ _ s (embedding_lookup_run w s m Hm)).
  destruct (lookup_fn (embeddings m) w) as [x|e]; [|reflexivity].
  rewrite bind_lift_ok, (bind_attr _ _ s m Hm), (bind_attr _ _ s m Hm).
  cbn [rbind].
  destruct (matmul_dtypes (dtype_of (embeddings m)) float32 x
              (embed_to_hidden_weight m)) as [y|e]; [|reflexivity].
  rewrite bind_lift_ok, (bind_attr _ _ s m Hm). cbn [rbind].
  destruct (add y (embed_to_hidden_bias m)) as [z|e]; [|reflexivity].
  rewrite bind_lift_ok, (bind_attr _ _ s m Hm). cbn [rbind].
  apply bind_ext_frame; [apply preserves_Dropout_forward|].
  intros d s' (_ & _ & Hm' & _). rewrite Hm in Hm'.
  rewrite (bind_attr _ _ s' m Hm'). unfold logits_fn, affine.
  destruct (matmul d (hidden_to_logits_weight m)) as [l|e]; [|reflexivity].
  rewrite bind_lift_ok, (bind_attr _ _ s' m Hm'). cbn [rbind].
  destruct (add l (hidden_to_logits_bias m)) as [l'|e]; reflexivity.
Qed.
End RunFacts.

Section ForwardFacts.
Context {F : Type} `{Scalar F}.

Lemma spec_lookup_row_length (e : tensor F) (w : tensor Z) (nw es B nf b : nat) :
  shape e = [nw; es] -> shape w = [B; nf] ->
  length (spec_lookup_row e w b) = nf * es.
Proof.
  intros Hse Hsw. unfold spec_lookup_row, ncols. rewrite Hsw. cbn [nth].
  rewrite (flat_map_constant_length (c := es)), length_seq; [reflexivity|].
  intros f _. unfold spec_embedding_row, ncols. rewrite Hse. cbn [nth].
  now rewrite length_map, length_seq.
Qed.

Lemma spec_dropout_row_length (d : Dropout F) (g : RNG) (n k b : nat) (h : list F) :
  length h = k -> length (spec_dropout_row d g n k b h) = k.
Proof.
  intros Hh. unfold spec_dropout_row.
  destruct (dropout_active d (n * k)); [|exact Hh].
  destruct (prob_is_one (p d)); [now rewrite length_map|].
  now rewrite length_map, length_seq.
Qed.

Lemma rbind_assoc {A B C} (r : result A) (f : A -> result B) (g : B -> result C) :
  rbind r (fun a => rbind (f a) g) = rbind (rbind r f) g.
Proof. now destruct r. Qed.

Lemma dtype_eqb_eq (a b : dtype) : dtype_eqb a b = true <-> a = b.
Proof. destruct a, b; simpl; split; congruence. Qed.

(** Dropout on a matrix given row by row. *)
Lemma Dropout_forward_rows (d : Dropout F) (r : nat -> list F) (n k : nat) (s : World F) :
  (forall b, b < n -> length (r b) = k) ->
  Dropout_forward d (mkTensor [n; k] (flat_map r (seq 0 n))) s =
    if prob_in_range (p d)
    then Return (mkTensor [n; k]
                   (flat_map (fun b => spec_dropout_row d (rng s) n k b (r b)) (seq 0 n)))
                (after_dropout d (n * k) s)
    else Raise ValueError s.
Proof.
  intros Hr. unfold Dropout_forward, spec_dropout_row, after_dropout, dropout_draws.
  cbn [shape data numel fold_right]. rewrite Nat.mul_1_r.
  destruct (prob_in_range (p d)); [|reflexivity].
  destruct (dropout_active d (n * k)); cbn [andb]; [|reflexivity].
  destruct (prob_is_one (p d)); cbn [negb].
  { unfold ret. now rewrite map_flat_map. }
  unfold bind, draws, ret, mul. cbn [shape data]. do 2 f_equal.
  change (seq 0 (n * k)) with (seq (0 * k) (n * k)).
  rewrite seq_blocks, !map_flat_map.
  rewrite map2_flat_map.
  2:{ intros b Hb. apply in_seq in Hb.
      rewrite !length_map, length_seq. apply Hr. lia. }
  apply flat_map_ext_in. intros b Hb. apply in_seq in Hb.
  rewrite !map_map.
  rewrite (list_nth_seq fzero (r b)) at 1. rewrite (Hr b) by lia.
  apply map2_map_map.
Qed.

(** [forward] on valid input, row by row: the first matrix product
    refuses embeddings of another dtype than the weights', dropout refuses
    a probability out of range, and otherwise every row of the result is
    the logits row of the corresponding feature vector. *)
Lemma forward_rows (m : ParserModel F) (w : tensor Z) (B : nat) (s : World F) :
  g_model s = Some m -> wf_model m ->
  shape w = [B; n_features m] -> wf_tensor w ->
  valid_indices (num_words m) w -> 1 <= B ->
  forward w s =
    if dtype_eqb (dtype_of (embeddings m)) float32
    then
      if prob_in_range (p (dropout m))
      then Return (mkTensor [B; n_classes m]
                     (flat_map (fun b => spec_logits_row m (rng s) B b
                                           (spec_lookup_row (embeddings m) w b))
                               (seq 0 B)))
                  (after_dropout (dropout m) (B * hidden_size m) s)
      else Raise ValueError s
    else Raise RuntimeError s.
Proof.
  intros Hm Hwf Hsw Hww Hvalid HB.
  destruct Hwf as [Hse Hwe Hs1 Hw1 Hsb1 Hwb1 Hs2 Hw2 Hsb2 Hwb2].
  rewrite (forward_run w s m Hm). unfold hidden_fn.
  rewrite (lookup_fn_ok _ _ _ _ _ _ Hse Hwe Hsw Hww Hvalid HB). cbn [rbind].
  unfold matmul_dtypes.
  destruct (dtype_eqb (dtype_of (embeddings m)) float32); [|reflexivity].
  rewrite (Nat.mul_comm (n_features m) (embed_size m)).
  rewrite rbind_assoc.
  change (rbind (matmul ?x ?a) (fun y => add y ?c)) with (affine x a c).
  rewrite (affine_rows _ _ _ B _ _ Hs1 Hw1 Hsb1 Hwb1).
  2:{ intros b _. rewrite Nat.mul_comm.
      exact (spec_lookup_row_length _ _ _ _ _ _ b Hse Hsw). }
  cbn [rbind]. rewrite relu_rows.
  unfold bind. rewrite Dropout_forward_rows.
  2:{ intros b _. rewrite length_map, spec_affine_length.
      unfold ncols. now rewrite Hs1. }
  destruct (prob_in_range (p (dropout m))); [|reflexivity].
  unfold logits_fn.
  rewrite (affine_rows _ _ _ B _ _ Hs2 Hw2 Hsb2 Hwb2).
  2:{ intros b _. apply spec_dropout_row_length.
      rewrite length_map, spec_affine_length. unfold ncols. now rewrite Hs1. }
  reflexivity.
Qed.

(** With float32 embeddings and a probability in range [forward]
    returns. *)
Lemma forward_ok (m : ParserModel F) (w : tensor Z) (B : nat) (s : World F) :
  g_model s = Some m -> wf_model m ->
  dtype_of (embeddings m) = float32 -> prob_in_range (p (dropout m)) = true ->
  shape w = [B; n_features m] -> wf_tensor w ->
  valid_indices (num_words m) w -> 1 <= B ->
  forward w s =
    Return (mkTensor [B; n_classes m]
              (flat_map (fun b => spec_logits_row m (rng s) B b
                                    (spec_lookup_row (embeddings m) w b))
                        (seq 0 B)))
           (after_dropout (dropout m) (B * hidden_size m) s).
Proof.
  intros Hm Hwf Hdt Hp Hsw Hww Hvalid HB.
  rewrite (forward_rows m w B s Hm Hwf Hsw Hww Hvalid HB).
  now rewrite Hdt, Hp.
Qed.

Lemma embedding_lookup_ok (m : ParserModel F) (w : tensor Z) (nw es B nf : nat) (s : World F) :
  g_model s = Some m ->
  shape (embeddings m) = [nw; es] -> wf_tensor (embeddings m) ->
  shape w = [B; nf] -> wf_tensor w ->
  valid_indices nw w -> 1 <= B ->
  embedding_lookup w s =
    Return (mkTensor [B; nf * es]
              (flat_map (spec_lookup_row (embeddings m) w) (seq 0 B))) s.
Proof.
  intros Hm Hse Hwe Hsw Hww Hvalid HB.
  rewrite (embedding_lookup_run w s m Hm).
  now rewrite (lookup_fn_ok _ _ _ _ _ _ Hse Hwe Hsw Hww Hvalid HB).
Qed.

(** An empty batch is refused by the flattening [view]. *)
Lemma embedding_lookup_empty_batch (m : ParserModel F) (w : tensor Z)
    (nw es nf : nat) (s : World F) :
  g_model s = Some m ->
  shape (embeddings m) = [nw; es] ->
  shape w = [0; nf] -> wf_tensor w ->
  embedding_lookup w s = Raise RuntimeError s.
Proof.
  intros Hm Hse Hsw Hww.
  rewrite (embedding_lookup_run w s m Hm). unfold lookup_fn, getitem.
  assert (Hd : data w = []).
  { unfold wf_tensor in Hww. rewrite Hsw in Hww. simpl in Hww.
    now apply length_zero_iff_nil. }
  rewrite Hse, Hd. cbn [gather rbind]. unfold size. rewrite Hsw.
  cbn [app shape nth_error rbind Z.of_nat].
  now rewrite view_empty_batch.
Qed.
End ForwardFacts.

(** ** The constructor and the random inputs *)

Section InitFacts.
Context {F : Type} `{Scalar F}.

Lemma wf_zeros (sh : list nat) : wf_tensor (zeros (F := F) sh).
Proof. unfold wf_tensor, zeros. cbn [data shape]. apply repeat_length. Qed.

Lemma draws_run (n : nat) (s : World F) :
  draws n s =
    Return (map (fun i => stream (rng s) (cursor (rng s) + N.of_nat i)%N) (seq 0 n))
           (with_rng (mkRNG (stream (rng s)) (cursor (rng s) + N.of_nat n)%N) s).
Proof. reflexivity. Qed.

Lemma xavier_uniform_run (a b : nat) (s : World F) :
  b + a <> 0 ->
  exists t s', xavier_uniform_ (zeros [a; b]) s = Return t s' /\
    frame_rng s s' /\ shape t = [a; b] /\ wf_tensor t.
Proof.
  intros Hab. unfold xavier_uniform_, zeros. cbn [shape].
  rewrite (proj2 (Nat.eqb_neq _ _) Hab).
  unfold bind. rewrite draws_run. unfold ret.
  eexists. eexists. split; [reflexivity|].
  split; [apply frame_rng_with_rng|]. split; [reflexivity|].
  unfold wf_tensor. cbn [data shape]. now rewrite !length_map, length_seq.
Qed.

Lemma uniform_run (a : nat) (s : World F) :
  exists t s', uniform_ (zeros [a]) s = Return t s' /\
    frame_rng s s' /\ shape t = [a] /\ wf_tensor t.
Proof.
  unfold uniform_, zeros. cbn [shape].
  unfold bind. rewrite draws_run. unfold ret.
  eexists. eexists. split; [reflexivity|].
  split; [apply frame_rng_with_rng|]. split; [reflexivity|].
  unfold wf_tensor. cbn [data shape]. now rewrite !length_map, length_seq.
Qed.

(** The constructor succeeds on a matrix of embeddings and a probability
    in range, unless a layer has no fan at all; the model it returns has
    the shapes the methods rely on and starts in training mode. *)
Lemma ParserModel_init_ok (e : typed F) (nf hs nc : nat) (p0 : F)
    (s : World F) (nw es : nat) :
  shape e = [nw; es] -> wf_tensor e -> prob_in_range p0 = true ->
  hs + es * nf <> 0 -> nc + hs <> 0 ->
  exists m s', ParserModel_init e nf hs nc p0 s = Return m s' /\
    frame_rng s s' /\ wf_model m /\ embeddings m = e /\
    n_features m = nf /\ n_classes m = nc /\ hidden_size m = hs /\
    dropout m = mkDropout p0 true.
Proof.
  intros Hse Hwe Hp Hf1 Hf2. unfold ParserModel_init, size.
  rewrite Hse. cbn [nth_error]. rewrite bind_lift_ok.
  destruct (xavier_uniform_run (es * nf) hs s Hf1) as (w1 & s1 & E1 & Fr1 & Sw1 & Ww1).
  destruct (uniform_run hs s1) as (b1 & s2 & E2 & Fr2 & Sb1 & Wb1).
  destruct (xavier_uniform_run hs nc s2 Hf2) as (w2 & s3 & E3 & Fr3 & Sw2 & Ww2).
  destruct (uniform_run nc s3) as (b2 & s4 & E4 & Fr4 & Sb2 & Wb2).
  unfold bind at 1. rewrite E1. unfold bind at 1. rewrite E2.
  unfold Dropout_init. rewrite Hp. unfold bind at 1. unfold ret at 1.
  unfold bind at 1. rewrite E3. unfold bind at 1. rewrite E4. unfold ret.
  eexists. exists s4. split; [reflexivity|].
  split.
  { eapply frame_rng_trans; [exact Fr1|].
    eapply frame_rng_trans; [exact Fr2|].
    eapply frame_rng_trans; [exact Fr3|exact Fr4]. }
  split; [|repeat split].
  constructor; cbn [embeddings embed_size n_features hidden_size n_classes
    embed_to_hidden_weight embed_to_hidden_bias hidden_to_logits_weight
    hidden_to_logits_bias]; try assumption.
  unfold num_words, nrows. cbn [embeddings]. rewrite Hse. reflexivity.
Qed.

(** [torch.randint] yields a well-formed tensor of the requested shape
    with every entry in [[low, high)]. *)
Lemma randint_run (low high : Z) (sh : list nat) (s : World F) :
  (low < high)%Z ->
  exists t s', randint low high sh s = Return t s' /\
    frame_rng s s' /\ shape t = sh /\ wf_tensor t /\
    Forall (fun i => (low <= i < high)%Z) (data t).
Proof.
  intros Hlh. unfold randint.
  rewrite (proj2 (Z.ltb_lt _ _) Hlh).
  unfold bind. rewrite draws_run. unfold ret.
  eexists. eexists. split; [reflexivity|].
  split; [apply frame_rng_with_rng|]. split; [reflexivity|].
  split.
  - unfold wf_tensor. cbn [data shape]. now rewrite !length_map, length_seq.
  - cbn [data]. apply Forall_forall. intros i Hi.
    apply in_map_iff in Hi. destruct Hi as [r [<- _]].
    assert (0 <= Z.of_N r mod (high - low) < high - low)%Z
      by (apply Z.mod_pos_bound; lia).
    lia.
Qed.

Lemma entry2_zeros (sh : list nat) (i j : nat) :
  entry2 (zeros (F := F) sh) fzero i j = fzero.
Proof.
  unfold entry2, zeros. cbn [shape data].
  destruct sh as [|a [|b [|c sh']]]; try reflexivity.
  apply nth_repeat.
Qed.

(** Looking up rows of an all-zero matrix yields zeros only. *)
Lemma spec_lookup_row_zeros (sh : list nat) (w : tensor Z) (b : nat) :
  Forall (fun v => v = fzero) (spec_lookup_row (zeros (F := F) sh) w b).
Proof.
  unfold spec_lookup_row. apply Forall_flat_map, Forall_forall. intros f _.
  unfold spec_embedding_row. apply Forall_forall. intros v Hv.
  apply in_map_iff in Hv. destruct Hv as [j [<- _]].
  apply entry2_zeros.
Qed.
End InitFacts.

(** ** The sanity checks *)

Section CheckFacts.
Context {F : Type} `{Scalar F}.

Lemma bind_return {A B} (c : M (World F) A) (k : A -> M (World F) B)
    (s s' : World F) (a : A) :
  c s = Return a s' -> bind c k s = k a s'.
Proof. intros Hc. unfold bind. now rewrite Hc. Qed.

Lemma bind_raise {A B} (c : M (World F) A) (k : A -> M (World F) B)
    (s s' : World F) (e : exn) :
  c s = Raise e s' -> bind c k s = Raise e s'.
Proof. intros Hc. unfold bind. now rewrite Hc. Qed.

Lemma effects_refl (s : World F) : effects s s [] [].
Proof. unfold effects. now rewrite !app_nil_r. Qed.

Lemma effects_trans (s1 s2 s3 : World F) (c1 c2 o1 o2 : list string) :
  effects s1 s2 c1 o1 -> effects s2 s3 c2 o2 ->
  effects s1 s3 (c1 ++ c2) (o1 ++ o2).
Proof.
  unfold effects. intros (?&?&Hc1&Ho1) (?&?&Hc2&Ho2).
  rewrite !app_assoc, <- Hc1, <- Ho1. repeat split; congruence.
Qed.

Lemma valid_indices_weaken (n n' : nat) (w : tensor Z) :
  n <= n' -> Forall (fun i => (0 <= i < Z.of_nat n)%Z) (data w) ->
  valid_indices n' w.
Proof.
  intros Hn. unfold valid_indices. apply Forall_impl. intros i Hi. lia.
Qed.

(** [check_embedding] on any bound model with at least a hundred
    embedding rows: the lookup of the drawn indices returns, and the check
    raises [AssertionError] exactly when the result has a non-zero entry. *)
Lemma check_embedding_run (m : ParserModel F) (nw es : nat) (s : World F) :
  g_model s = Some m ->
  shape (embeddings m) = [nw; es] -> wf_tensor (embeddings m) -> 100 <= nw ->
  exists inds s',
    randint 0 100 [4; 36] (with_calls (calls s ++ ["check_embedding"%string]) s) =
      Return inds s' /\
    shape inds = [4; 36] /\ wf_tensor inds /\ valid_indices 100 inds /\
    effects s s' ["check_embedding"%string] [] /\ g_model s' = Some m /\
    embedding_lookup inds s' =
      Return (mkTensor [4; 36 * es]
                (flat_map (spec_lookup_row (embeddings m) inds) (seq 0 4))) s' /\
    check_embedding s =
      if forallb is_zero
           (flat_map (spec_lookup_row (embeddings m) inds) (seq 0 4))
      then Return tt s' else Raise AssertionError s'.
Proof.
  intros Hm Hse Hwe Hnw. unfold check_embedding.
  set (s0 := with_calls (calls s ++ ["check_embedding"%string]) s).
  rewrite (bind_return (enter "check_embedding") _ s s0 tt eq_refl).
  destruct (randint_run 0 100 [4; 36] s0 ltac:(lia))
    as (inds & s1 & E1 & Fr1 & Si & Wi & Vi).
  rewrite (bind_return _ _ _ _ _ E1).
  assert (Hm1 : g_model s1 = Some m).
  { destruct Fr1 as (_ & _ & Hg & _). now rewrite Hg. }
  assert (Vw : valid_indices nw inds) by (apply (valid_indices_weaken 100); assumption).
  rewrite (bind_return _ _ _ _ _
             (embedding_lookup_ok m inds nw es 4 36 s1 Hm1 Hse Hwe Si Wi Vw ltac:(lia))).
  exists inds, s1.
  split; [exact E1|].
  repeat split; try assumption.
  - destruct Fr1 as (Ha & _ & _ & _ & _ & _). now rewrite Ha.
  - destruct Fr1 as (_ & _ & _ & _ & He & _). now rewrite He.
  - destruct Fr1 as (_ & _ & _ & _ & _ & Hc). now rewrite Hc.
  - destruct Fr1 as (_ & _ & _ & Ho & _ & _). rewrite Ho. simpl.
    now rewrite app_nil_r.
  - exact (embedding_lookup_ok m inds nw es 4 36 s1 Hm1 Hse Hwe Si Wi Vw ltac:(lia)).
  - unfold assert. cbn [data]. now destruct (forallb _ _).
Qed.

(** [check_forward] on any bound model with float32 embeddings,
    thirty-six features and at least a hundred embedding rows: [forward]
    returns on the indices drawn, and the check raises [AssertionError]
    exactly when the output shape is not [(4, 3)]. *)
Lemma check_forward_run (m : ParserModel F) (s : World F) :
  g_model s = Some m -> wf_model m ->
  dtype_of (embeddings m) = float32 -> prob_in_range (p (dropout m)) = true ->
  n_features m = 36 -> 100 <= num_words m ->
  exists inputs s1 out s',
    randint 0 100 [4; 36] (with_calls (calls s ++ ["check_forward"%string]) s) =
      Return inputs s1 /\
    shape inputs = [4; 36] /\ wf_tensor inputs /\ valid_indices 100 inputs /\
    g_model s1 = Some m /\
    forward inputs s1 = Return out s' /\ shape out = [4; n_classes m] /\
    effects s s' ["check_forward"%string] [] /\ g_model s' = Some m /\
    check_forward s =
      if shape_eqb (shape out) [4; 3]
      then Return tt s' else Raise AssertionError s'.
Proof.
  intros Hm Hwf Hdt Hp Hnf Hnw. unfold check_forward.
  set (s0 := with_calls (calls s ++ ["check_forward"%string]) s).
  rewrite (bind_return (enter "check_forward") _ s s0 tt eq_refl).
  destruct (randint_run 0 100 [4; 36] s0 ltac:(lia))
    as (inputs & s1 & E1 & Fr1 & Si & Wi & Vi).
  rewrite (bind_return _ _ _ _ _ E1).
  assert (Hm1 : g_model s1 = Some m).
  { destruct Fr1 as (_ & _ & Hg & _). now rewrite Hg. }
  assert (Vw : valid_indices (num_words m) inputs)
    by (apply (valid_indices_weaken 100); assumption).
  assert (Si' : shape inputs = [4; n_features m]) by now rewrite Hnf.
  pose proof (forward_ok m inputs 4 s1 Hm1 Hwf Hdt Hp Si' Wi Vw ltac:(lia)) as Run.
  rewrite (bind_return _ _ _ _ _ Run).
  exists inputs, s1. eexists. eexists.
  split; [exact E1|].
  split; [exact Si|]. split; [exact Wi|]. split; [exact Vi|].
  split; [exact Hm1|]. split; [exact Run|]. split; [reflexivity|].
  assert (Hfr : frame_rng s0 (after_dropout (dropout m) (4 * hidden_size m) s1)).
  { unfold after_dropout. destruct (dropout_draws _ _); [|exact Fr1].
    eapply frame_rng_trans; [exact Fr1|apply frame_rng_with_rng]. }
  split; [|split]; [| |unfold assert, ret, raise; cbn [shape];
    destruct (shape_eqb _ _); reflexivity].
  - destruct Hfr as (Ha & _ & _ & Ho & He & Hc).
    unfold effects. rewrite Ha, Ho, He, Hc. simpl. now rewrite app_nil_r.
  - destruct Hfr as (_ & _ & Hg & _). now rewrite Hg.
Qed.

(** Each main block builds the sanity-check model: a hundred zero
    embeddings of width thirty, thirty-six features, three classes,
    training mode. *)
Lemma make_model_run (s : World F) :
  exists m s',
    make_model s = Return tt s' /\ g_model s' = Some m /\ wf_model m /\
    embeddings m = mkTyped float32 (zeros [100; 30]) /\
    n_features m = 36 /\ n_classes m = 3 /\
    dropout m = mkDropout default_dropout_prob true /\
    effects s s' [] [].
Proof.
  unfold make_model.
  set (e := mkTyped float32 (zeros (F := F) [100; 30])).
  set (s0 := with_embeddings e s).
  rewrite (bind_return (set_embeddings e) _ s s0 tt eq_refl).
  rewrite (bind_return (global g_embeddings) _ s0 s0 e eq_refl).
  destruct (ParserModel_init_ok e 36 200 3 default_dropout_prob s0 100 30
              eq_refl (wf_zeros _) default_dropout_prob_ok ltac:(lia) ltac:(lia))
    as (m & s1 & E1 & Fr1 & Hwf & He & Hnf & Hnc & _ & Hd).
  unfold ParserModel_new. rewrite (bind_return _ _ _ _ _ E1).
  exists m, (with_model m s1).
  destruct Fr1 as (Ha & _ & _ & Ho & Hx & Hc).
  split; [reflexivity|]. split; [reflexivity|]. split; [exact Hwf|].
  split; [exact He|]. split; [exact Hnf|]. split; [exact Hnc|].
  split; [exact Hd|].
  unfold effects. simpl. rewrite !app_nil_r. tauto.
Qed.
End CheckFacts.

(** ** The cells *)

Section CellFacts.
Context {F : Type} `{Scalar F}.

Lemma global_args_run (a : Args.t) (s : World F) :
  g_args s = Some a -> global g_args s = Return a s.
Proof. intros Ha. unfold global. now rewrite Ha. Qed.

Lemma forallb_lookup_zeros (sh : list nat) (w : tensor Z) (l : list nat) :
  forallb is_zero (flat_map (spec_lookup_row (zeros (F := F) sh) w) l) = true.
Proof.
  apply forallb_forall. intros v Hv.
  apply in_flat_map in Hv. destruct Hv as [b [_ Hv]].
  pose proof (spec_lookup_row_zeros sh w b) as Hz.
  rewrite Forall_forall in Hz. rewrite (Hz v Hv). apply is_zero_fzero.
Qed.

(** The embedding check on the sanity-check model passes and prints. *)
Lemma embedding_check_passes (m : ParserModel F) (s : World F) :
  g_model s = Some m -> embeddings m = mkTyped float32 (zeros [100; 30]) ->
  exists s', (check_embedding;; print embedding_passes) s = Return tt s' /\
    g_model s' = Some m /\
    effects s s' ["check_embedding"%string] [embedding_passes].
Proof.
  intros Hm He.
  destruct (check_embedding_run m 100 30 s Hm)
    as (inds & s1 & _ & _ & _ & _ & Hef & Hm1 & _ & Run);
    [now rewrite He|rewrite He; apply wf_zeros|lia|].
  rewrite He in Run. cbn [untyped] in Run. rewrite forallb_lookup_zeros in Run.
  rewrite (bind_return _ _ _ _ _ Run).
  eexists. split; [reflexivity|]. split; [exact Hm1|].
  destruct Hef as (Ha & Hx & Hc & Ho). unfold effects. simpl.
  rewrite Ha, Hx, Hc, Ho, app_nil_r. tauto.
Qed.

(** The forward check on a well-formed model with float32 embeddings,
    thirty-six features, three classes and a hundred embedding rows passes
    and prints. *)
Lemma forward_check_passes (m : ParserModel F) (s : World F) :
  g_model s = Some m -> wf_model m ->
  dtype_of (embeddings m) = float32 -> prob_in_range (p (dropout m)) = true ->
  n_features m = 36 -> n_classes m = 3 -> 100 <= num_words m ->
  exists s', (check_forward;; print forward_passes) s = Return tt s' /\
    g_model s' = Some m /\
    effects s s' ["check_forward"%string] [forward_passes].
Proof.
  intros Hm Hwf Hdt Hp Hnf Hnc Hnw.
  destruct (check_forward_run m s Hm Hwf Hdt Hp Hnf Hnw)
    as (inputs & s0 & out & s1 & _ & _ & _ & _ & _ & _ & Hout & Hef & Hm1 & Run).
  rewrite Hout, Hnc in Run. change (shape_eqb [4; 3] [4; 3]) with true in Run.
  rewrite (bind_return _ _ _ _ _ Run).
  eexists. split; [reflexivity|]. split; [exact Hm1|].
  destruct Hef as (Ha & Hx & Hc & Ho). unfold effects. simpl.
  rewrite Ha, Hx, Hc, Ho, app_nil_r. tauto.
Qed.

Lemma num_words_sanity (m : ParserModel F) :
  embeddings m = mkTyped float32 (zeros [100; 30]) -> num_words m = 100.
Proof. intros He. unfold num_words. now rewrite He. Qed.

Lemma sanity_model_accepted (m : ParserModel F) :
  embeddings m = mkTyped float32 (zeros [100; 30]) ->
  dropout m = mkDropout default_dropout_prob true ->
  dtype_of (embeddings m) = float32 /\ prob_in_range (p (dropout m)) = true.
Proof.
  intros He Hd. rewrite He, Hd. split; [reflexivity|apply default_dropout_prob_ok].
Qed.

Lemma run_embedding_check_run (a : Args.t) (m : ParserModel F) (s : World F) :
  g_args s = Some a -> g_model s = Some m ->
  embeddings m = mkTyped float32 (zeros [100; 30]) ->
  exists s', run_embedding_check s = Return tt s' /\ g_model s' = Some m /\
    effects s s'
      (if Args.embedding a then ["check_embedding"%string] else [])
      (if Args.embedding a then [embedding_passes] else []).
Proof.
  intros Ha Hm He. unfold run_embedding_check.
  rewrite (bind_return _ _ _ _ _ (global_args_run a s Ha)).
  destruct (Args.embedding a).
  - apply embedding_check_passes; assumption.
  - exists s. split; [reflexivity|]. split; [exact Hm|apply effects_refl].
Qed.

Lemma cell_3_run (a : Args.t) (s : World F) :
  g_args s = Some a ->
  exists s', cell_3 s = Return tt s' /\
    effects s s' (gated_calls a) (gated_output a).
Proof.
  intros Ha. unfold cell_3.
  destruct (make_model_run s) as (m & s1 & E1 & Hm1 & Hwf & He & Hnf & Hnc & Hd & Ef1).
  destruct (sanity_model_accepted m He Hd) as [Hdt Hp].
  rewrite (bind_return _ _ _ _ _ E1).
  assert (Ha1 : g_args s1 = Some a) by (destruct Ef1 as (-> & _); exact Ha).
  destruct (run_embedding_check_run a m s1 Ha1 Hm1 He) as (s2 & E2 & Hm2 & Ef2).
  rewrite (bind_return _ _ _ _ _ E2).
  assert (Ha2 : g_args s2 = Some a) by (destruct Ef2 as (-> & _); exact Ha1).
  rewrite (bind_return _ _ _ _ _ (global_args_run a s2 Ha2)).
  pose proof (effects_trans _ _ _ _ _ _ _ Ef1 Ef2) as Ef12. simpl in Ef12.
  unfold gated_calls, gated_output.
  destruct (Args.forward a).
  - destruct (forward_check_passes m s2 Hm2 Hwf Hdt Hp Hnf Hnc) as (s3 & E3 & _ & Ef3).
    { rewrite (num_words_sanity m He). lia. }
    exists s3. split; [exact E3|].
    exact (effects_trans _ _ _ _ _ _ _ Ef12 Ef3).
  - exists s2. split; [reflexivity|]. now rewrite !app_nil_r.
Qed.

Lemma cell_4_run (a : Args.t) (s : World F) :
  g_args s = Some a ->
  exists s', cell_4 s = Return tt s' /\
    effects s s'
      (if Args.embedding a then ["check_embedding"%string] else [])
      (if Args.embedding a then [embedding_passes] else []).
Proof.
  intros Ha. unfold cell_4.
  destruct (make_model_run s) as (m & s1 & E1 & Hm1 & _ & He & _ & _ & _ & Ef1).
  rewrite (bind_return _ _ _ _ _ E1).
  assert (Ha1 : g_args s1 = Some a) by (destruct Ef1 as (-> & _); exact Ha).
  destruct (run_embedding_check_run a m s1 Ha1 Hm1 He) as (s2 & E2 & _ & Ef2).
  exists s2. split; [exact E2|].
  exact (effects_trans _ _ _ _ _ _ _ Ef1 Ef2).
Qed.

Lemma cell_5_run (a : Args.t) (s : World F) :
  g_args s = Some a ->
  exists s', cell_5 s = Return tt s' /\
    effects s s'
      (if Args.forward a then ["check_forward"%string] else [])
      (if Args.forward a then [forward_passes] else ["No"%string]).
Proof.
  intros Ha. unfold cell_5.
  destruct (make_model_run s) as (m & s1 & E1 & Hm1 & Hwf & He & Hnf & Hnc & Hd & Ef1).
  destruct (sanity_model_accepted m He Hd) as [Hdt Hp].
  rewrite (bind_return _ _ _ _ _ E1).
  assert (Ha1 : g_args s1 = Some a) by (destruct Ef1 as (-> & _); exact Ha).
  rewrite (bind_return _ _ _ _ _ (global_args_run a s1 Ha1)).
  destruct (Args.forward a).
  - destruct (forward_check_passes m s1 Hm1 Hwf Hdt Hp Hnf Hnc) as (s2 & E2 & _ & Ef2).
    { rewrite (num_words_sanity m He). lia. }
    exists s2. split; [exact E2|].
    exact (effects_trans _ _ _ _ _ _ _ Ef1 Ef2).
  - eexists. split; [reflexivity|].
    destruct Ef1 as (Hg & Hx & Hc & Ho). unfold effects. simpl.
    rewrite Hg, Hx, Hc, Ho, !app_nil_r. tauto.
Qed.

Lemma cell_6_run (s : World F) :
  exists s', cell_6 s = Return tt s' /\ effects s s' [] [sys_executable s].
Proof.
  eexists. split; [reflexivity|].
  unfold effects. simpl. rewrite app_nil_r. tauto.
Qed.

(** Cells three to six under any flags: each check is entered once per
    cell that contains it when its flag is set, and never otherwise. *)
Lemma cells_run (a : Args.t) (s : World F) :
  g_args s = Some a ->
  exists s', (cell_3;; cell_4;; cell_5;; cell_6) s = Return tt s' /\
    effects s s'
      (gated_calls a ++ gated_calls a)
      (gated_output a ++
       (if Args.embedding a then [embedding_passes] else []) ++
       (if Args.forward a then [forward_passes] else ["No"%string]) ++
       [sys_executable s]).
Proof.
  intros Ha.
  destruct (cell_3_run a s Ha) as (s1 & E1 & Ef1).
  assert (Ha1 : g_args s1 = Some a) by (destruct Ef1 as (-> & _); exact Ha).
  destruct (cell_4_run a s1 Ha1) as (s2 & E2 & Ef2).
  assert (Ha2 : g_args s2 = Some a) by (destruct Ef2 as (-> & _); exact Ha1).
  destruct (cell_5_run a s2 Ha2) as (s3 & E3 & Ef3).
  destruct (cell_6_run s3) as (s4 & E4 & Ef4).
  rewrite (bind_return _ _ _ _ _ E1), (bind_return _ _ _ _ _ E2),
    (bind_return _ _ _ _ _ E3).
  exists s4. split; [exact E4|].
  assert (Hx : sys_executable s3 = sys_executable s).
  { destruct Ef1 as (_ & X1 & _), Ef2 as (_ & X2 & _), Ef3 as (_ & X3 & _).
    congruence. }
  rewrite Hx in Ef4.
  pose proof (effects_trans _ _ _ _ _ _ _
                (effects_trans _ _ _ _ _ _ _
                   (effects_trans _ _ _ _ _ _ _ Ef1 Ef2) Ef3) Ef4) as Ef.
  unfold gated_calls at 2.
  rewrite app_nil_r, <- !app_assoc in Ef. exact Ef.
Qed.
(** The whole notebook after its second cell has set the flags to [a]. *)
Lemma flagged_cells_run (a : Args.t) (s : World F) :
  exists s',
    (set_args a;; cell_3;; cell_4;; cell_5;; cell_6) s = Return tt s' /\
    effects (with_args a s) s'
      (gated_calls a ++ gated_calls a)
      (gated_output a ++
       (if Args.embedding a then [embedding_passes] else []) ++
       (if Args.forward a then [forward_passes] else ["No"%string]) ++
       [sys_executable s]).
Proof.
  destruct (cells_run a (with_args a s) eq_refl) as (s' & E & Ef).
  exists s'. split; [|exact Ef].
  rewrite (bind_return (set_args a) _ s (with_args a s) tt eq_refl). exact E.
Qed.

Lemma notebook_never_enters_check_forward (s : World F) :
  calls s = [] ->
  ~ In "check_forward"%string (calls (final_state (notebook s))).
Proof.
  intros Hs.
  destruct (flagged_cells_run (Args.mk true false) s)
    as (s' & E & (_ & _ & Hc & _)).
  change (notebook s = Return tt s') in E. rewrite E.
  cbn [final_state]. rewrite Hc. cbn [calls with_args]. rewrite Hs. cbn.
  intros [Hx|[Hx|[]]]; discriminate.
Qed.
End CellFacts.

(** ** Which exceptions the methods can raise *)

Section ExceptionFacts.
Context {F : Type} `{Scalar F}.

Ltac break_match H :=
  repeat match type of H with
         | context [match ?x with _ => _ end] => destruct x
         end;
  try discriminate.

Lemma getitem_exn {A} (e : tensor A) (w : tensor Z) (ex : exn) :
  getitem e w = Fail ex -> ex = IndexError.
Proof. unfold getitem. intros Hx. break_match Hx; congruence. Qed.

Lemma size_exn {A} (t : tensor A) (d : nat) (ex : exn) :
  size t d = Fail ex -> ex = IndexError.
Proof. unfold size. intros Hx. break_match Hx; congruence. Qed.

Lemma view_exn {A} (t : tensor A) (sh : list Z) (ex : exn) :
  view t sh = Fail ex -> ex = RuntimeError.
Proof.
  unfold view, infer_size.
  destruct (existsb _ sh); [cbn; congruence|].
  destruct (count_occ Z.eq_dec sh (-1)%Z) as [|[|c]]; cbv zeta.
  - destruct (_ =? _); cbn; congruence.
  - destruct (_ || _); [|cbn; congruence].
    destruct (_ =? _); cbn; congruence.
  - cbn; congruence.
Qed.

Lemma matmul_exn (x wt : tensor F) (ex : exn) :
  matmul x wt = Fail ex -> ex = RuntimeError \/ ex = Unmodelled.
Proof.
  unfold matmul. intros Hx.
  break_match Hx; injection Hx as <-; auto.
Qed.

Lemma broadcast_rows_exn (rs : list (list F)) (b : list F) (ex : exn) :
  broadcast_rows rs b = Fail ex -> ex = RuntimeError.
Proof.
  induction rs as [|r rs IH]; simpl; [discriminate|].
  unfold broadcast_row.
  destruct (length r =? length b); cbn [rbind].
  - destruct (broadcast_rows rs b); cbn [rbind]; [discriminate|].
    intros Hx. apply IH. exact Hx.
  - destruct b as [|b0 [|b1 b']]; destruct r as [|v [|v' r']]; cbn [rbind];
      try (intros Hx; congruence);
      destruct (broadcast_rows rs _); cbn [rbind];
      try discriminate; intros Hx; apply IH; exact Hx.
Qed.

Lemma add_exn (x b : tensor F) (ex : exn) :
  add x b = Fail ex -> ex = RuntimeError \/ ex = Unmodelled.
Proof.
  unfold add. intros Hx.
  destruct (shape x) as [|n [|a [|c sx]]]; try (injection Hx as <-; auto).
  destruct (shape b) as [|c [|c' sb]]; try (injection Hx as <-; auto).
  destruct ((a =? c) || (c =? 1) || (a =? 1)); [|injection Hx as <-; auto].
  destruct (broadcast_rows (rows x) (data b)) as [rs|e] eqn:E; [discriminate|].
  cbn [rbind] in Hx. injection Hx as <-.
  left. exact (broadcast_rows_exn _ _ _ E).
Qed.

Lemma lookup_fn_exn (e : tensor F) (w : tensor Z) (ex : exn) :
  lookup_fn e w = Fail ex -> ex = IndexError \/ ex = RuntimeError.
Proof.
  unfold lookup_fn. intros Hx.
  destruct (getitem e w) as [x|e1] eqn:E1; cbn [rbind] in Hx;
    [|injection Hx as <-; left; exact (getitem_exn _ _ _ E1)].
  destruct (size x 0) as [n|e2] eqn:E2; cbn [rbind] in Hx;
    [|injection Hx as <-; left; exact (size_exn _ _ _ E2)].
  right. exact (view_exn _ _ _ Hx).
Qed.

Lemma affine_exn (x wt b : tensor F) (ex : exn) :
  affine x wt b = Fail ex -> ex = RuntimeError \/ ex = Unmodelled.
Proof.
  unfold affine. intros Hx.
  destruct (matmul x wt) as [y|e1] eqn:E1; cbn [rbind] in Hx;
    [exact (add_exn _ _ _ Hx)|].
  injection Hx as <-. exact (matmul_exn _ _ _ E1).
Qed.

(** [embedding_lookup] raises nothing but what reading [model], indexing
    and [view] raise. *)
Lemma embedding_lookup_exn (w : tensor Z) (s : World F) (ex : exn) :
  yield (embedding_lookup w s) = Fail ex ->
  ex = NameError \/ ex = IndexError \/ ex = RuntimeError.
Proof.
  destruct (g_model s) as [m|] eqn:Hm.
  - rewrite (embedding_lookup_run w s m Hm).
    destruct (lookup_fn (embeddings m) w) as [x|e] eqn:E; [discriminate|].
    cbn. intros Hx. injection Hx as <-. right. exact (lookup_fn_exn _ _ _ E).
  - rewrite (embedding_lookup_unbound w s Hm). cbn. intros Hx.
    injection Hx as <-. now left.
Qed.

Lemma matmul_dtypes_exn (dx dw : dtype) (x wt : tensor F) (ex : exn) :
  matmul_dtypes dx dw x wt = Fail ex -> ex = RuntimeError \/ ex = Unmodelled.
Proof.
  unfold matmul_dtypes. destruct (dtype_eqb dx dw); [apply matmul_exn|].
  intros Hx. injection Hx as <-. now left.
Qed.

Lemma Dropout_forward_exn (d : Dropout F) (x : tensor F) (s s' : World F) (ex : exn) :
  Dropout_forward d x s = Raise ex s' -> ex = ValueError.
Proof.
  unfold Dropout_forward.
  destruct (prob_in_range (p d)); [|unfold raise; congruence].
  destruct (dropout_active d (numel (shape x))); [|discriminate].
  destruct (prob_is_one (p d)); discriminate.
Qed.

(** [forward] adds to these only what [matmul] and broadcasting raise and
    the [ValueError] of dropout. *)
Lemma forward_exn (w : tensor Z) (s : World F) (ex : exn) :
  yield (forward w s) = Fail ex ->
  ex = NameError \/ ex = IndexError \/ ex = RuntimeError \/ ex = ValueError \/
  ex = Unmodelled.
Proof.
  destruct (g_model s) as [m|] eqn:Hm.
  - rewrite (forward_run w s m Hm). unfold hidden_fn.
    destruct (lookup_fn (embeddings m) w) as [x|e] eqn:E1; cbn [rbind].
    2:{ cbn. intros Hx. injection Hx as <-.
        destruct (lookup_fn_exn _ _ _ E1); auto. }
    destruct (matmul_dtypes (dtype_of (embeddings m)) float32 x
                (embed_to_hidden_weight m)) as [y|e] eqn:E2; cbn [rbind].
    2:{ cbn. intros Hx. injection Hx as <-.
        destruct (matmul_dtypes_exn _ _ _ _ _ E2); auto. }
    destruct (add y (embed_to_hidden_bias m)) as [z|e] eqn:E3; cbn [rbind].
    2:{ cbn. intros Hx. injection Hx as <-.
        destruct (add_exn _ _ _ E3); auto. }
    unfold bind.
    destruct (Dropout_forward (dropout m) (relu z) s) as [d s'|e s'] eqn:E4.
    + unfold logits_fn.
      destruct (affine d (hidden_to_logits_weight m) (hidden_to_logits_bias m))
        as [l|e] eqn:E5; cbn; [discriminate|].
      intros Hx. injection Hx as <-. destruct (affine_exn _ _ _ _ E5); auto.
    + cbn. intros Hx. injection Hx as <-.
      rewrite (Dropout_forward_exn _ _ _ _ _ E4). auto.
  - unfold forward.
    rewrite (bind_raise _ _ s s NameError (embedding_lookup_unbound w s Hm)).
    cbn. intros Hx. injection Hx as <-. now left.
Qed.
End ExceptionFacts.

(** * The claims *)

Section Claims.
Context {F : Type} `{Scalar F}.

Lemma spec_logits_row_length (m : ParserModel F) (g : RNG) (n b : nat) (x : list F) :
  length (spec_logits_row m g n b x) = ncols (hidden_to_logits_weight m).
Proof. unfold spec_logits_row. apply spec_affine_length. Qed.

(** C1.  On a well-formed model and valid indices of shape
    [(batch_size, n_features)], [forward] is [embedding_lookup] followed,
    on every row [x] of its result, by [ReLU(x . W1 + b1)], dropout and
    [. W2 + b2]; the value returned is that last affine layer's, with no
    softmax after it.  The steps raise what they raise on their own: what
    [embedding_lookup] raises, [RuntimeError] at the first product when
    the embeddings have another dtype than the [float32] weights, and
    [ValueError] at dropout when its probability is out of range.  The
    generator moves by one draw per hidden unit exactly when dropout is in
    training mode with a probability that is neither zero nor one. *)
Theorem forward_computes_pipeline
    (m : ParserModel F) (w : tensor Z) (B : nat) (s : World F)
    (Hm : g_model s = Some m) (Hwf : wf_model m)
    (Hshape : shape w = [B; n_features m]) (Hw : wf_tensor w)
    (Hvalid : valid_indices (num_words m) w) :
  forward w s =
    match embedding_lookup w s with
    | Raise e s' => Raise e s'
    | Return x s' =>
        if dtype_eqb (dtype_of (embeddings m)) float32
        then
          if prob_in_range (p (dropout m))
          then
            Return
              (mkTensor [nrows x; n_classes m]
                 (flat_map (fun b => spec_logits_row m (rng s') (nrows x) b
                                       (nth b (rows x) []))
                           (seq 0 (nrows x))))
              (after_dropout (dropout m) (nrows x * hidden_size m) s')
          else Raise ValueError s'
        else Raise RuntimeError s'
    end.
Proof.
  destruct B as [|B'].
  - rewrite (embedding_lookup_empty_batch m w (num_words m) (embed_size m)
               (n_features m) s Hm (wf_embeddings_shape Hwf) Hshape Hw).
    unfold forward. apply bind_raise.
    exact (embedding_lookup_empty_batch m w (num_words m) (embed_size m)
             (n_features m) s Hm (wf_embeddings_shape Hwf) Hshape Hw).
  - assert (HB : 1 <= S B') by lia.
    rewrite (forward_rows m w (S B') s Hm Hwf Hshape Hw Hvalid HB).
    rewrite (embedding_lookup_ok m w (num_words m) (embed_size m) (S B')
               (n_features m) s Hm (wf_embeddings_shape Hwf)
               (wf_embeddings Hwf) Hshape Hw Hvalid HB).
    rewrite rows_flat_map
      by (intros b _; exact (spec_lookup_row_length _ _ _ _ _ _ b
                               (wf_embeddings_shape Hwf) Hshape)).
    unfold nrows. cbn [shape nth].
    destruct (dtype_eqb _ _); [|reflexivity].
    destruct (prob_in_range _); [|reflexivity].
    do 2 f_equal.
    apply flat_map_ext_in. intros b Hb. apply in_seq in Hb.
    rewrite nth_map_seq by lia. reflexivity.
Qed.

(** C2 (amended: the batch is not empty).  On valid indices of shape
    [(batch_size, n_features)] with [batch_size >= 1], [embedding_lookup]
    returns a well-formed tensor of shape
    [(batch_size, n_features * embed_size)] whose row [b] is the
    concatenation of the embedding rows selected by [w[b][0]], ...,
    [w[b][n_features-1]]; the state is left as it was. *)
Theorem embedding_lookup_concatenates_rows
    (m : ParserModel F) (w : tensor Z) (nw es B nf : nat) (s : World F)
    (Hm : g_model s = Some m)
    (He : shape (embeddings m) = [nw; es]) (Hwe : wf_tensor (embeddings m))
    (Hshape : shape w = [B; nf]) (Hw : wf_tensor w)
    (Hvalid : valid_indices nw w) (HB : 1 <= B) :
  exists x,
    embedding_lookup w s = Return x s /\
    shape x = [B; nf * es] /\ wf_tensor x /\
    forall b, b < B ->
      nth b (rows x) [] =
        flat_map (fun f => spec_embedding_row (embeddings m)
                             (Z.to_nat (entry2 w 0%Z b f)))
                 (seq 0 nf).
Proof.
  eexists. split; [exact (embedding_lookup_ok m w nw es B nf s Hm He Hwe Hshape Hw Hvalid HB)|].
  split; [reflexivity|]. split.
  - unfold wf_tensor. cbn [shape data numel fold_right].
    rewrite (flat_map_constant_length (c := nf * es)), length_seq; [lia|].
    intros b _. exact (spec_lookup_row_length _ _ _ _ _ _ b He Hshape).
  - intros b Hb.
    rewrite rows_flat_map
      by (intros b' _; exact (spec_lookup_row_length _ _ _ _ _ _ b' He Hshape)).
    rewrite nth_map_seq by exact Hb.
    unfold spec_lookup_row, ncols. rewrite Hshape. reflexivity.
Qed.
Lemma forward_returns_logits (m : ParserModel F) (w : tensor Z) (B : nat) (s : World F) :
  g_model s = Some m -> wf_model m ->
  dtype_of (embeddings m) = float32 -> prob_in_range (p (dropout m)) = true ->
  shape w = [B; n_features m] -> wf_tensor w ->
  valid_indices (num_words m) w -> 1 <= B ->
  exists l s', forward w s = Return l s' /\
    shape l = [B; n_classes m] /\ wf_tensor l.
Proof.
  intros Hm Hwf Hdt Hp Hshape Hw Hvalid HB.
  eexists. eexists.
  split; [exact (forward_ok m w B s Hm Hwf Hdt Hp Hshape Hw Hvalid HB)|].
  split; [reflexivity|].
  unfold wf_tensor. cbn [shape data numel fold_right].
  rewrite (flat_map_constant_length (c := n_classes m)), length_seq; [lia|].
  intros b _. rewrite spec_logits_row_length. unfold ncols.
  now rewrite (wf_w2_shape Hwf).
Qed.

Lemma enter_then {A} (name : string) (c : M (World F) A) (s : World F) :
  (enter name;; c) s = c (with_calls (calls s ++ [name]) s).
Proof. reflexivity. Qed.

(** C3 (amended: the batch is not empty and the embedding matrix is
    [float32], the dtype of the layer weights).  On a model with [float32]
    embeddings, as the constructor leaves it (well-formed, dropout
    probability in range), and valid indices of shape
    [(batch_size, n_features)] with [batch_size >= 1], [forward] returns a
    well-formed logits tensor of shape [(batch_size, n_classes)].  The
    sanity-check model, built from the [float32] zero matrix of shape
    [(100, 30)] with the default thirty-six features and three classes, is
    such a model: on the [(4, 36)] input that [check_forward] draws,
    [forward] returns an output of shape [(4, 3)], and the check
    returns. *)
Theorem forward_logits_shape
    (m : ParserModel F) (w : tensor Z) (B : nat) (s s0 : World F)
    (Hm : g_model s = Some m) (Hwf : wf_model m)
    (Hdtype : dtype_of (embeddings m) = float32)
    (Hp : prob_in_range (p (dropout m)) = true)
    (Hshape : shape w = [B; n_features m]) (Hw : wf_tensor w)
    (Hvalid : valid_indices (num_words m) w) (HB : 1 <= B) :
  (exists l s', forward w s = Return l s' /\
     shape l = [B; n_classes m] /\ wf_tensor l) /\
  (exists m0 s1 inputs s2 out s3,
     make_model s0 = Return tt s1 /\ g_model s1 = Some m0 /\
     embeddings m0 = mkTyped float32 (zeros [100; 30]) /\
     n_features m0 = 36 /\ n_classes m0 = 3 /\
     (enter "check_forward";; randint 0 100 [4; 36]) s1 = Return inputs s2 /\
     shape inputs = [4; 36] /\ g_model s2 = Some m0 /\
     forward inputs s2 = Return out s3 /\
     shape out = [4; 3] /\ check_forward s1 = Return tt s3).
Proof.
  split; [exact (forward_returns_logits m w B s Hm Hwf Hdtype Hp Hshape Hw Hvalid HB)|].
  destruct (make_model_run s0) as (m0 & s1 & E1 & Hm1 & Hwf0 & He & Hnf & Hnc & Hd & _).
  destruct (sanity_model_accepted m0 He Hd) as [Hdt0 Hp0].
  destruct (check_forward_run m0 s1 Hm1 Hwf0 Hdt0 Hp0 Hnf)
    as (inputs & s2 & out & s3 & Draw & Si & _ & _ & Hm2 & Run & Hout & _ & _ & Chk).
  { rewrite (num_words_sanity m0 He). lia. }
  rewrite Hnc in Hout. rewrite Hout in Chk.
  change (shape_eqb [4; 3] [4; 3]) with true in Chk.
  exists m0, s1, inputs, s2, out, s3.
  split; [exact E1|]. split; [exact Hm1|]. split; [exact He|].
  split; [exact Hnf|]. split; [exact Hnc|].
  split; [rewrite enter_then; exact Draw|].
  split; [exact Si|]. split; [exact Hm2|]. split; [exact Run|].
  split; [exact Hout|exact Chk].
Qed.

(** C4 (amended: only the embedding check runs).  Run from top to bottom
    with [args = Namespace(embedding=True, forward=False)], the notebook
    returns normally; [check_embedding] is entered twice (cells three and
    four) and [check_forward] never, the forward-check cell printing [No]
    instead.  Under any flags each check is entered exactly in the cells
    that hold it when its flag is set, and not at all otherwise. *)
Theorem notebook_runs_gated_checks (s : World F) :
  (exists s', notebook s = Return tt s' /\
     calls s' = calls s ++ ["check_embedding"; "check_embedding"]%string /\
     stdout s' = stdout s ++
       [embedding_passes; embedding_passes; "No"%string; sys_executable s]) /\
  (forall a, exists s',
     (set_args a;; cell_3;; cell_4;; cell_5;; cell_6) s = Return tt s' /\
     calls s' = calls s ++ gated_calls a ++ gated_calls a /\
     (In "check_embedding"%string (gated_calls a ++ gated_calls a) <->
        Args.embedding a = true) /\
     (In "check_forward"%string (gated_calls a ++ gated_calls a) <->
        Args.forward a = true)).
Proof.
  split.
  - destruct (flagged_cells_run (Args.mk true false) s) as (s' & E & (_ & _ & Hc & Ho)).
    exists s'. split; [exact E|]. split; [exact Hc|exact Ho].
  - intros a. destruct (flagged_cells_run a s) as (s' & E & (_ & _ & Hc & _)).
    exists s'. split; [exact E|]. split; [exact Hc|].
    unfold gated_calls.
    destruct (Args.embedding a), (Args.forward a); simpl; split; split;
      intros Hx; try reflexivity; try discriminate; try tauto;
      repeat (destruct Hx as [Hx|Hx]; try discriminate); try contradiction.
Qed.

(** C5.  For the model built from the all-zero [float32] [(100, 30)]
    embedding matrix, [embedding_lookup] on any [(4, 36)] tensor of indices in
    [[0, 100)] returns a tensor of zeros, and [check_embedding] returns
    without raising. *)
Theorem zero_embeddings_lookup_is_zero
    (s0 : World F) (w : tensor Z)
    (Hshape : shape w = [4; 36]) (Hw : wf_tensor w)
    (Hvalid : valid_indices 100 w) :
  exists m s1 x s2,
    make_model s0 = Return tt s1 /\ g_model s1 = Some m /\
    embeddings m = mkTyped float32 (zeros [100; 30]) /\
    embedding_lookup w s1 = Return x s1 /\ shape x = [4; 36 * 30] /\
    Forall (fun v => v = fzero) (data x) /\
    forallb is_zero (data x) = true /\
    check_embedding s1 = Return tt s2.
Proof.
  destruct (make_model_run s0) as (m & s1 & E1 & Hm1 & _ & He & _ & _ & _ & _).
  assert (Hse : shape (embeddings m) = [100; 30]) by now rewrite He.
  assert (Hwe : wf_tensor (embeddings m)) by (rewrite He; apply wf_zeros).
  destruct (check_embedding_run m 100 30 s1 Hm1 Hse Hwe (le_n 100))
    as (inds & s2 & _ & _ & _ & _ & _ & _ & _ & Chk).
  rewrite He in Chk. cbn [untyped] in Chk. rewrite forallb_lookup_zeros in Chk.
  exists m, s1. eexists. exists s2.
  split; [exact E1|]. split; [exact Hm1|]. split; [exact He|].
  split; [exact (embedding_lookup_ok m w 100 30 4 36 s1 Hm1 Hse Hwe Hshape Hw
                   Hvalid ltac:(lia))|].
  split; [reflexivity|]. cbn [data]. rewrite He. cbn [untyped].
  split; [|split; [apply forallb_lookup_zeros|exact Chk]].
  apply Forall_flat_map, Forall_forall. intros b _.
  apply spec_lookup_row_zeros.
Qed.
Lemma forallb_false_iff {A} (f : A -> bool) (l : list A) :
  forallb f l = false <-> exists v, In v l /\ f v = false.
Proof.
  induction l as [|a l IH]; simpl.
  - split; [discriminate|intros (v & [] & _)].
  - rewrite andb_false_iff, IH. split.
    + intros [Ha|(v & Hv & Hf)]; [exists a; auto|exists v; auto].
    + intros (v & [<-|Hv] & Hf); [now left|right; now exists v].
Qed.

Lemma shape_eqb_true_iff (s1 s2 : list nat) : shape_eqb s1 s2 = true <-> s1 = s2.
Proof.
  unfold shape_eqb. destruct (list_eq_dec Nat.eq_dec s1 s2); split;
    intros; congruence.
Qed.

(** C6 (amended: the batch is not empty and the embedding matrix is
    [float32], the dtype of the layer weights).  On a model with [float32]
    embeddings, as the constructor leaves it, and valid indices of shape
    [(batch_size, n_features)] with [batch_size >= 1], [embedding_lookup]
    and [forward] return normally; neither ever raises [AssertionError], on
    any input.  Each sanity check draws its indices, calls its method on
    them and raises [AssertionError] exactly when the condition of its
    [assert] is false of what the method returned: a non-zero entry in the
    lookup result for [check_embedding], an output shape other than
    [(4, 3)] for [check_forward]; it returns exactly when the condition
    holds. *)
Theorem methods_return_and_asserts_guard
    (m : ParserModel F) (w : tensor Z) (B : nat) (s : World F)
    (Hm : g_model s = Some m) (Hwf : wf_model m)
    (Hdtype : dtype_of (embeddings m) = float32)
    (Hp : prob_in_range (p (dropout m)) = true)
    (Hshape : shape w = [B; n_features m]) (Hw : wf_tensor w)
    (Hvalid : valid_indices (num_words m) w) (HB : 1 <= B) :
  (exists x, embedding_lookup w s = Return x s) /\
  (exists l s', forward w s = Return l s') /\
  (forall w' s', yield (embedding_lookup w' s') <> Fail AssertionError /\
                 yield (forward w' s') <> Fail AssertionError) /\
  (100 <= num_words m ->
   exists inds s1 selected,
     (enter "check_embedding";; randint 0 100 [4; 36]) s = Return inds s1 /\
     embedding_lookup inds s1 = Return selected s1 /\
     check_embedding s =
       (if forallb is_zero (data selected)
        then Return tt s1 else Raise AssertionError s1) /\
     (yield (check_embedding s) = Fail AssertionError <->
        exists v, In v (data selected) /\ is_zero v = false) /\
     (yield (check_embedding s) = Ok tt <->
        forall v, In v (data selected) -> is_zero v = true)) /\
  (100 <= num_words m -> n_features m = 36 ->
   exists inputs s1 out s2,
     (enter "check_forward";; randint 0 100 [4; 36]) s = Return inputs s1 /\
     forward inputs s1 = Return out s2 /\
     check_forward s =
       (if shape_eqb (shape out) [4; 3]
        then Return tt s2 else Raise AssertionError s2) /\
     (yield (check_forward s) = Fail AssertionError <-> shape out <> [4; 3]) /\
     (yield (check_forward s) = Ok tt <-> shape out = [4; 3])).
Proof.
  split.
  { eexists. exact (embedding_lookup_ok m w (num_words m) (embed_size m) B
      (n_features m) s Hm (wf_embeddings_shape Hwf) (wf_embeddings Hwf)
      Hshape Hw Hvalid HB). }
  split.
  { destruct (forward_returns_logits m w B s Hm Hwf Hdtype Hp Hshape Hw Hvalid HB)
      as (l & s' & E & _). now exists l, s'. }
  split.
  { intros w' s'. split; intros Hx.
    - destruct (embedding_lookup_exn w' s' _ Hx) as [?|[?|?]]; discriminate.
    - destruct (forward_exn w' s' _ Hx) as [?|[?|[?|[?|?]]]]; discriminate. }
  split.
  - intros Hnw.
    destruct (check_embedding_run m (num_words m) (embed_size m) s Hm
                (wf_embeddings_shape Hwf) (wf_embeddings Hwf) Hnw)
      as (inds & s1 & Draw & _ & _ & _ & _ & _ & Look & Chk).
    exists inds, s1. eexists.
    split; [rewrite enter_then; exact Draw|].
    split; [exact Look|]. cbn [data]. split; [exact Chk|].
    rewrite Chk, <- forallb_false_iff, <- forallb_forall.
    destruct (forallb _ _); cbn [yield]; split; split; congruence.
  - intros Hnw Hnf.
    destruct (check_forward_run m s Hm Hwf Hdtype Hp Hnf Hnw)
      as (inputs & s1 & out & s2 & Draw & _ & _ & _ & _ & Run & _ & _ & _ & Chk).
    exists inputs, s1, out, s2.
    split; [rewrite enter_then; exact Draw|].
    split; [exact Run|]. split; [exact Chk|].
    rewrite Chk, <- shape_eqb_true_iff.
    destruct (shape_eqb _ _); cbn [yield]; split; split; congruence.
Qed.


Lemma dropout_inactive_eval (d : Dropout F) (n : nat) :
  training d = false -> dropout_active d n = false /\ dropout_draws d n = false.
Proof.
  intros He. unfold dropout_draws, dropout_active. now rewrite He.
Qed.



(** C8.  Neither method assigns to the model: whether the call returns
    or raises, the object bound to [model], with its five parameter
    tensors and its fields [n_features], [n_classes], [dropout_prob],
    [embed_size] and [hidden_size], is the one from before the call;
    so are the other globals, the output and the call log. *)
Theorem methods_leave_model_unchanged (w : tensor Z) (s : World F) :
  g_model (final_state (embedding_lookup w s)) = g_model s /\
  g_model (final_state (forward w s)) = g_model s /\
  frame_rng s (final_state (embedding_lookup w s)) /\
  frame_rng s (final_state (forward w s)).
Proof.
  pose proof (preserves_embedding_lookup w s) as H1.
  pose proof (preserves_forward w s) as H2.
  split; [apply H1|]. split; [apply H2|]. split; assumption.
Qed.

Lemma gather_undefined {A} (e : tensor A) (idx : list Z) :
  Exists (fun i => select_row e i = None) idx -> gather e idx = None.
Proof.
  induction 1 as [i idx Hi|i idx _ IH]; simpl.
  - now rewrite Hi.
  - rewrite IH. now destruct (select_row e i).
Qed.

(** C9.  Under the precondition [0 <= w[b][f] < num_words] for every
    entry, row selection is defined on every entry of [w], so indexing the
    embedding matrix by [w] yields a tensor and [embedding_lookup] does not
    raise [IndexError]; an entry on which row selection is undefined makes
    it raise [IndexError]. *)
Theorem lookup_index_never_out_of_range
    (m : ParserModel F) (w : tensor Z) (s : World F)
    (Hm : g_model s = Some m)
    (He : shape (embeddings m) = [num_words m; embed_size m])
    (Hvalid : valid_indices (num_words m) w) :
  Forall (fun i => select_row (embeddings m) i <> None) (data w) /\
  (exists x, getitem (embeddings m) w = Ok x) /\
  yield (embedding_lookup w s) <> Fail IndexError /\
  (forall w', Exists (fun i => select_row (embeddings m) i = None) (data w') ->
              yield (embedding_lookup w' s) = Fail IndexError).
Proof.
  assert (Hget : getitem (embeddings m) w =
                   Ok (mkTensor (shape w ++ [embed_size m])
                         (concat (map (fun i => slice_row (numel [embed_size m])
                                                  (data (embeddings m)) (Z.to_nat i))
                                      (data w))))).
  { unfold getitem.
    now rewrite He, (gather_valid _ (num_words m) [embed_size m] (data w) He Hvalid). }
  split; [|split; [|split]].
  - unfold valid_indices in Hvalid. revert Hvalid. apply Forall_impl.
    intros i Hi. unfold select_row.
    rewrite He, norm_index_valid by exact Hi. discriminate.
  - eexists. exact Hget.
  - rewrite (embedding_lookup_run w s m Hm). unfold lookup_fn.
    rewrite Hget. cbn [rbind]. unfold size. cbn [shape].
    destruct (shape w) as [|n sw]; cbn [app nth_error rbind];
      match goal with
      | |- context [view ?t ?sh] => destruct (view t sh) as [y|ex] eqn:E
      end; cbn; try discriminate;
      rewrite (view_exn _ _ _ E); discriminate.
  - intros w' Hbad. rewrite (embedding_lookup_run w' s m Hm).
    unfold lookup_fn, getitem.
    now rewrite He, (gather_undefined _ _ Hbad).
Qed.

Lemma yield_lift {A} (r : result A) (s : World F) : yield (lift r s) = r.
Proof. now destruct r. Qed.

Lemma yield_dropout_then (d : Dropout F) (h : tensor F)
    (k : tensor F -> result (tensor F)) (s : World F) :
  yield (bind (Dropout_forward d h) (fun x => lift (k x)) s) =
    if prob_in_range (p d)
    then k (if dropout_active d (numel (shape h))
            then
              if prob_is_one (p d)
              then mkTensor (shape h) (map (fun v => fmul v fzero) (data h))
              else mul h (mkTensor (shape h)
                            (map (dropout_noise (p d))
                               (map (fun i => stream (rng s) (cursor (rng s) + N.of_nat i)%N)
                                    (seq 0 (numel (shape h))))))
            else h)
    else Fail ValueError.
Proof.
  unfold Dropout_forward.
  destruct (prob_in_range (p d)); [|reflexivity].
  destruct (dropout_active d (numel (shape h))); [|apply yield_lift].
  destruct (prob_is_one (p d)); unfold bind, draws, ret; apply yield_lift.
Qed.

(** C10.  What [embedding_lookup] yields is a function of the model and
    the indices alone; so is what [forward] yields when dropout is
    disabled; with dropout enabled it is a function of the model, the
    indices and the generator, and the generator enters through the
    dropout step only.  Two calls on equal models and equal inputs
    therefore yield the same, in training mode once the generator is in the
    same state too. *)
Theorem lookup_and_eval_forward_deterministic
    (w : tensor Z) (s1 s2 : World F)
    (Hmodel : g_model s1 = g_model s2) :
  yield (embedding_lookup w s1) = yield (embedding_lookup w s2) /\
  ((forall m, g_model s1 = Some m -> training (dropout m) = false) ->
   yield (forward w s1) = yield (forward w s2)) /\
  (rng s1 = rng s2 -> yield (forward w s1) = yield (forward w s2)) /\
  (forall m, g_model s1 = Some m ->
     yield (forward w s1) =
       rbind (hidden_fn m w) (fun h =>
       rbind (yield (Dropout_forward (dropout m) h s1)) (logits_fn m))).
Proof.
  destruct (g_model s1) as [m|] eqn:Hm1; symmetry in Hmodel.
  - split; [|split; [|split]].
    + rewrite (embedding_lookup_run w s1 m Hm1),
        (embedding_lookup_run w s2 m Hmodel).
      now rewrite !yield_lift.
    + intros Heval. specialize (Heval m eq_refl).
      rewrite (forward_run w s1 m Hm1), (forward_run w s2 m Hmodel).
      destruct (hidden_fn m w) as [h|e]; [|reflexivity].
      rewrite !yield_dropout_then.
      now rewrite (proj1 (dropout_inactive_eval _ _ Heval)).
    + intros Hrng.
      rewrite (forward_run w s1 m Hm1), (forward_run w s2 m Hmodel).
      destruct (hidden_fn m w) as [h|e]; [|reflexivity].
      rewrite !yield_dropout_then. now rewrite Hrng.
    + intros m' Hm'. injection Hm' as <-.
      rewrite (forward_run w s1 m Hm1).
      destruct (hidden_fn m w) as [h|e]; [|reflexivity].
      cbn [rbind]. unfold bind.
      destruct (Dropout_forward (dropout m) h s1) as [d s'|e s']; [|reflexivity].
      cbn [yield rbind]. apply yield_lift.
  - assert (E1 := embedding_lookup_unbound w s1 Hm1).
    assert (E2 := embedding_lookup_unbound w s2 Hmodel).
    split; [now rewrite E1, E2|].
    unfold forward.
    rewrite (bind_raise _ _ s1 s1 NameError E1), (bind_raise _ _ s2 s2 NameError E2).
    split; [reflexivity|]. split; [reflexivity|]. intros m Hm. discriminate.
Qed.
End Claims.

(** * The claims on concrete inputs *)

Lemma tiny_model_wf (train : bool) : wf_model (tiny_model train).
Proof. constructor; reflexivity. Qed.

Lemma w_tiny_valid : valid_indices (num_words (tiny_model false)) w_tiny.
Proof. unfold valid_indices. cbn. repeat constructor; lia. Qed.

Lemma w_other_valid : valid_indices (num_words (tiny_model false)) w_other.
Proof. unfold valid_indices. cbn. repeat constructor; lia. Qed.


Lemma tiny_model_float64_wf : wf_model tiny_model_float64.
Proof. constructor; reflexivity. Qed.


Lemma w_zero_valid : valid_indices 100 w_zero.
Proof.
  unfold valid_indices, w_zero. cbn [data].
  apply Forall_forall. intros i Hi. apply repeat_spec in Hi. subst i. lia.
Qed.

(** C1 on the tiny model: the logits of the two windows. *)
Lemma forward_computes_pipeline_witness :
  yield (forward w_tiny s_tiny) = Ok (mkTensor [2; 2] [15; 39; 15; 39]%Z).
Proof.
  rewrite (forward_computes_pipeline (tiny_model false) w_tiny 2 s_tiny
             eq_refl (tiny_model_wf false) eq_refl eq_refl w_tiny_valid).
  reflexivity.
Defined.

(** C2 as stated fails on an empty batch: the indices are vacuously
    valid and of shape [(0, n_features)], and the lookup raises. *)
Lemma embedding_lookup_empty_batch_counterexample :
  g_model s_tiny = Some (tiny_model false) /\
  shape (embeddings (tiny_model false)) = [3; 2] /\
  wf_tensor (embeddings (tiny_model false)) /\
  shape w_empty = [0; 2] /\ wf_tensor w_empty /\
  valid_indices 3 w_empty /\
  embedding_lookup w_empty s_tiny = Raise RuntimeError s_tiny.
Proof. repeat split; constructor. Qed.

Lemma embedding_lookup_concatenates_rows_witness :
  exists x,
    embedding_lookup w_tiny s_tiny = Return x s_tiny /\
    shape x = [2; 2 * 2] /\
    nth 0 (rows x) [] = [1; 2; 5; 6]%Z /\ nth 1 (rows x) [] = [3; 4; 3; 4]%Z.
Proof.
  destruct (embedding_lookup_concatenates_rows (tiny_model false) w_tiny 3 2 2 2
              s_tiny eq_refl eq_refl eq_refl eq_refl eq_refl w_tiny_valid (le_S 1 1 (le_n 1)))
    as (x & E & Hs & _ & Hrows).
  exists x. split; [exact E|]. split; [exact Hs|].
  split; [exact (Hrows 0 (le_S 1 1 (le_n 1)))|exact (Hrows 1 (le_n 2))].
Defined.

(** C3 as stated fails on an empty batch, where [forward] raises instead
    of returning a [(0, n_classes)] tensor, and on a model over [float64]
    embeddings, which the constructor builds and on which [forward] raises
    at the first matrix product. *)
Lemma forward_empty_batch_or_float64_counterexample :
  (g_model s_tiny = Some (tiny_model false) /\
   wf_model (tiny_model false) /\
   shape w_empty = [0; n_features (tiny_model false)] /\ wf_tensor w_empty /\
   valid_indices (num_words (tiny_model false)) w_empty /\
   forward w_empty s_tiny = Raise RuntimeError s_tiny) /\
  (g_model s_float64 = Some tiny_model_float64 /\
   wf_model tiny_model_float64 /\
   shape w_tiny = [2; n_features tiny_model_float64] /\ wf_tensor w_tiny /\
   valid_indices (num_words tiny_model_float64) w_tiny /\
   forward w_tiny s_float64 = Raise RuntimeError s_float64) /\
  yield ((m <- ParserModel_init tiny_embeddings_float64 2 3 2 50%Z;;
          set_model m;; forward w_tiny) s_fresh) = Fail RuntimeError.
Proof.
  split; [|split].
  - split; [reflexivity|]. split; [apply tiny_model_wf|].
    repeat split; constructor.
  - split; [reflexivity|]. split; [apply tiny_model_float64_wf|].
    split; [reflexivity|]. split; [reflexivity|].
    split; [exact w_tiny_valid|reflexivity].
  - vm_compute. reflexivity.
Qed.

Lemma forward_logits_shape_witness :
  (exists l s', forward w_tiny s_tiny = Return l s' /\
     shape l = [2; 2] /\ wf_tensor l) /\
  (exists m0 s1 inputs s2 out s3,
     make_model s_fresh = Return tt s1 /\ g_model s1 = Some m0 /\
     embeddings m0 = mkTyped float32 (zeros [100; 30]) /\
     n_features m0 = 36 /\ n_classes m0 = 3 /\
     (enter "check_forward";; randint 0 100 [4; 36]) s1 = Return inputs s2 /\
     shape inputs = [4; 36] /\ g_model s2 = Some m0 /\
     forward inputs s2 = Return out s3 /\
     shape out = [4; 3] /\ check_forward s1 = Return tt s3).
Proof.
  exact (@forward_logits_shape Z Scalar_Z (tiny_model false) w_tiny 2 s_tiny s_fresh
           eq_refl (tiny_model_wf false) eq_refl eq_refl eq_refl eq_refl
           w_tiny_valid (le_S 1 1 (le_n 1))).
Defined.

(** C4 as stated fails: run from a fresh state, the notebook never
    enters [check_forward]. *)
Lemma notebook_skips_forward_check_counterexample :
  ~ (In "check_embedding"%string (calls (final_state (notebook s_fresh))) /\
     In "check_forward"%string (calls (final_state (notebook s_fresh)))).
Proof.
  intros [_ Hin].
  exact (notebook_never_enters_check_forward s_fresh eq_refl Hin).
Qed.

Lemma zero_embeddings_lookup_is_zero_witness :
  exists m s1 x s2,
    make_model s_fresh = Return tt s1 /\ g_model s1 = Some m /\
    embeddings m = mkTyped float32 (zeros [100; 30]) /\
    embedding_lookup w_zero s1 = Return x s1 /\ shape x = [4; 36 * 30] /\
    Forall (fun v => v = 0%Z) (data x) /\
    forallb (Z.eqb 0) (data x) = true /\
    check_embedding s1 = Return tt s2.
Proof.
  exact (zero_embeddings_lookup_is_zero s_fresh w_zero eq_refl eq_refl w_zero_valid).
Defined.

(** C6 as stated fails on an empty batch, where the indices are in range
    and the shapes agree, yet both methods raise; and on a model over
    [float64] embeddings, where [forward] raises at the first matrix
    product. *)
Lemma methods_raise_on_empty_batch_or_float64_counterexample :
  (g_model s_tiny = Some (tiny_model false) /\
   wf_model (tiny_model false) /\
   shape w_empty = [0; n_features (tiny_model false)] /\ wf_tensor w_empty /\
   valid_indices (num_words (tiny_model false)) w_empty /\
   yield (embedding_lookup w_empty s_tiny) = Fail RuntimeError /\
   yield (forward w_empty s_tiny) = Fail RuntimeError) /\
  (g_model s_float64 = Some tiny_model_float64 /\
   wf_model tiny_model_float64 /\
   shape w_tiny = [2; n_features tiny_model_float64] /\ wf_tensor w_tiny /\
   valid_indices (num_words tiny_model_float64) w_tiny /\
   yield (forward w_tiny s_float64) = Fail RuntimeError).
Proof.
  split.
  - split; [reflexivity|]. split; [apply tiny_model_wf|].
    repeat split; constructor.
  - split; [reflexivity|]. split; [apply tiny_model_float64_wf|].
    split; [reflexivity|]. split; [reflexivity|].
    split; [exact w_tiny_valid|reflexivity].
Qed.

Lemma methods_return_and_asserts_guard_witness :
  (exists x, embedding_lookup w_tiny s_tiny = Return x s_tiny) /\
  (exists l s', forward w_tiny s_tiny = Return l s').
Proof.
  destruct (@methods_return_and_asserts_guard Z Scalar_Z (tiny_model false) w_tiny 2 s_tiny
              eq_refl (tiny_model_wf false) eq_refl eq_refl eq_refl eq_refl
              w_tiny_valid (le_S 1 1 (le_n 1)))
    as (H1 & H2 & _).
  split; [exact H1|exact H2].
Defined.



Lemma lookup_index_never_out_of_range_witness :
  yield (embedding_lookup w_tiny s_tiny) <> Fail IndexError /\
  yield (embedding_lookup (mkTensor [1; 2] [0; 3]%Z) s_tiny) = Fail IndexError.
Proof.
  destruct (lookup_index_never_out_of_range (tiny_model false) w_tiny s_tiny
              eq_refl eq_refl w_tiny_valid)
    as (_ & _ & Hok & Hbad).
  split; [exact Hok|].
  apply Hbad. apply Exists_cons_tl, Exists_cons_hd. reflexivity.
Defined.

Lemma lookup_and_eval_forward_deterministic_witness :
  yield (embedding_lookup w_tiny s_tiny) = yield (embedding_lookup w_tiny s_other) /\
  yield (forward w_tiny s_tiny) = yield (forward w_tiny s_other).
Proof.
  destruct (lookup_and_eval_forward_deterministic w_tiny s_tiny s_other eq_refl)
    as (H1 & H2 & _).
  split; [exact H1|]. apply H2.
  intros m Hm. injection Hm as <-. reflexivity.
Defined.

(** In training mode the generator does show in the result: the same
    model and input yield different logits over different draws. *)
Example forward_training_varies :
  yield (forward w_tiny (world_with (Some (tiny_model true)) (fun n => n))) <>
  yield (forward w_tiny (world_with (Some (tiny_model true)) (fun n => (n + 1)%N))).
Proof. vm_compute. discriminate. Qed.

(** Indices in [[-num_words, 0)] count from the last row, as the tensor
    library has it. *)
Example negative_index_wraps :
  yield (embedding_lookup (mkTensor [1; 2] [-1; -3]%Z) s_tiny) =
    Ok (mkTensor [1; 4] [5; 6; 1; 2]%Z).
Proof. reflexivity. Qed.

(** * Further properties of the code *)

Section MoreLookupFacts.
Context {F : Type} `{Scalar F}.

Lemma numel_app (a b : list nat) : numel (a ++ b) = numel a * numel b.
Proof.
  induction a as [|x a IH]; simpl; [lia|]. rewrite IH. lia.
Qed.

(** The lookup on an index tensor of any rank at least one: the first
    size is kept and all the others are flattened with the embedding
    width. *)
Lemma lookup_fn_any_rank (e : tensor F) (w : tensor Z) (nw es d0 : nat) (rest : list nat) :
  shape e = [nw; es] -> wf_tensor e ->
  shape w = d0 :: rest ->
  valid_indices nw w -> 1 <= d0 ->
  lookup_fn e w =
    Ok (mkTensor [d0; numel rest * es]
          (flat_map (fun i => spec_embedding_row e (Z.to_nat i)) (data w))).
Proof.
  intros Hse Hwe Hsw Hvalid Hd. unfold lookup_fn, getitem.
  rewrite Hse, (gather_valid e nw [es] (data w) Hse Hvalid). cbn [rbind].
  unfold size. rewrite Hsw. cbn [app nth_error shape rbind].
  rewrite (view_flatten _ d0 (numel rest * es)); [|exact Hd|].
  2:{ cbn [shape numel fold_right]. change (fold_right Nat.mul 1 (rest ++ [es]))
        with (numel (rest ++ [es])). rewrite numel_app. simpl. lia. }
  cbn [data]. do 2 f_equal.
  rewrite <- flat_map_concat_map.
  apply flat_map_ext_in. intros i Hi.
  unfold valid_indices in Hvalid. rewrite Forall_forall in Hvalid.
  specialize (Hvalid i Hi).
  unfold spec_embedding_row, ncols. rewrite Hse. cbn [nth].
  apply slice_row_entries with (n := nw); [exact Hse|exact Hwe|lia].
Qed.

Lemma norm_index_none (n : nat) (i : Z) :
  (i < - Z.of_nat n \/ Z.of_nat n <= i)%Z -> norm_index n i = None.
Proof.
  intros Hi. unfold norm_index.
  destruct (0 <=? i)%Z eqn:E1, (i <? Z.of_nat n)%Z eqn:E2,
    (- Z.of_nat n <=? i)%Z eqn:E3, (i <? 0)%Z eqn:E4; cbn [andb];
    try reflexivity;
    rewrite ?Z.leb_le, ?Z.leb_gt, ?Z.ltb_lt, ?Z.ltb_ge in *; lia.
Qed.

Lemma norm_index_wrap (n : nat) (i : Z) :
  (- Z.of_nat n <= i)%Z -> norm_index n (wrap_index n i) = norm_index n i.
Proof.
  intros Hi. unfold wrap_index.
  destruct (i <? 0)%Z eqn:E; [|reflexivity].
  apply Z.ltb_lt in E. unfold norm_index.
  replace (0 <=? i)%Z with false by (symmetry; apply Z.leb_gt; lia).
  replace (- Z.of_nat n <=? i)%Z with true by (symmetry; apply Z.leb_le; lia).
  replace (i <? 0)%Z with true by (symmetry; apply Z.ltb_lt; lia).
  replace (0 <=? i + Z.of_nat n)%Z with true by (symmetry; apply Z.leb_le; lia).
  replace (i + Z.of_nat n <? Z.of_nat n)%Z with true by (symmetry; apply Z.ltb_lt; lia).
  reflexivity.
Qed.

Lemma gather_wrap {A} (e : tensor A) (n : nat) (rest : list nat) (idx : list Z) :
  shape e = n :: rest ->
  Forall (fun i => (- Z.of_nat n <= i)%Z) idx ->
  gather e (map (wrap_index n) idx) = gather e idx.
Proof.
  intros Hs. induction 1 as [|i idx Hi _ IH]; simpl; [reflexivity|].
  unfold select_row. rewrite Hs, norm_index_wrap by exact Hi.
  now rewrite IH.
Qed.

Lemma final_state_lift {A} (r : result A) (s : World F) : final_state (lift r s) = s.
Proof. now destruct r. Qed.

Lemma embedding_lookup_final_state (w : tensor Z) (s : World F) :
  final_state (embedding_lookup w s) = s.
Proof.
  destruct (g_model s) as [m|] eqn:Hm.
  - rewrite (embedding_lookup_run w s m Hm). apply final_state_lift.
  - now rewrite (embedding_lookup_unbound w s Hm).
Qed.
End MoreLookupFacts.

Section MoreMethodFacts.
Context {F : Type} `{Scalar F}.

(** X1.  [embedding_lookup] accepts an index tensor of any rank at least
    one whose first size is positive: it keeps the first size, flattens
    all the others together with the embedding width, and lays out the
    selected embedding rows in the order of the indices. *)
Theorem embedding_lookup_flattens_any_rank
    (m : ParserModel F) (w : tensor Z) (nw es d0 : nat) (rest : list nat)
    (s : World F)
    (Hm : g_model s = Some m)
    (He : shape (embeddings m) = [nw; es]) (Hwe : wf_tensor (embeddings m))
    (Hshape : shape w = d0 :: rest)
    (Hvalid : valid_indices nw w) (Hd : 1 <= d0) :
  embedding_lookup w s =
    Return (mkTensor [d0; numel rest * es]
              (flat_map (fun i => spec_embedding_row (embeddings m) (Z.to_nat i))
                        (data w))) s.
Proof.
  rewrite (embedding_lookup_run w s m Hm).
  now rewrite (lookup_fn_any_rank _ w nw es d0 rest He Hwe Hshape Hvalid Hd).
Qed.

(** X2.  Indices in [[-num_words, 0)] count from the last embedding row:
    when no index is below [-num_words], [embedding_lookup] does on [w]
    exactly what it does on [w] with [num_words] added to its negative
    entries, returning or raising alike. *)
Theorem embedding_lookup_negative_indices
    (m : ParserModel F) (w : tensor Z) (nw es : nat) (s : World F)
    (Hm : g_model s = Some m)
    (He : shape (embeddings m) = [nw; es])
    (Hlow : Forall (fun i => (- Z.of_nat nw <= i)%Z) (data w)) :
  embedding_lookup w s =
    embedding_lookup (mkTensor (shape w) (map (wrap_index nw) (data w))) s.
Proof.
  rewrite !(embedding_lookup_run _ s m Hm).
  unfold lookup_fn, getitem. rewrite He. cbn [data shape].
  now rewrite (gather_wrap _ nw [es] (data w) He Hlow).
Qed.

(** X3.  Every entry of the tensor [embedding_lookup] returns is an entry
    of the embedding matrix. *)
Theorem embedding_lookup_entries_from_matrix
    (m : ParserModel F) (w : tensor Z) (nw es d0 : nat) (rest : list nat)
    (s : World F)
    (Hm : g_model s = Some m)
    (He : shape (embeddings m) = [nw; es]) (Hwe : wf_tensor (embeddings m))
    (Hshape : shape w = d0 :: rest)
    (Hvalid : valid_indices nw w) (Hd : 1 <= d0) :
  exists x, embedding_lookup w s = Return x s /\
    Forall (fun v => In v (data (embeddings m))) (data x).
Proof.
  eexists. split.
  { rewrite (embedding_lookup_run w s m Hm).
    now rewrite (lookup_fn_any_rank _ w nw es d0 rest He Hwe Hshape Hvalid Hd). }
  cbn [data]. apply Forall_flat_map, Forall_forall. intros i Hi.
  unfold valid_indices in Hvalid. rewrite Forall_forall in Hvalid.
  specialize (Hvalid i Hi).
  unfold spec_embedding_row, ncols, entry2. rewrite He. cbn [nth].
  apply Forall_forall. intros v Hv.
  apply in_map_iff in Hv. destruct Hv as [c [<- Hc]]. apply in_seq in Hc.
  apply nth_In.
  unfold wf_tensor in Hwe. rewrite He in Hwe. simpl in Hwe. nia.
Qed.

(** X4.  [embedding_lookup] never touches the state, generator included,
    whether it returns or raises; neither does [forward] when dropout is
    disabled. *)
Theorem lookup_and_eval_forward_leave_state
    (w : tensor Z) (s : World F)
    (Heval : forall m, g_model s = Some m -> training (dropout m) = false) :
  final_state (embedding_lookup w s) = s /\
  final_state (forward w s) = s.
Proof.
  split; [apply embedding_lookup_final_state|].
  destruct (g_model s) as [m|] eqn:Hm.
  - rewrite (forward_run w s m Hm).
    destruct (hidden_fn m w) as [h|e]; [|reflexivity].
    unfold bind, Dropout_forward.
    destruct (prob_in_range (p (dropout m))); [|reflexivity].
    rewrite (proj1 (dropout_inactive_eval _ _ (Heval m eq_refl))).
    unfold ret. apply final_state_lift.
  - unfold forward.
    now rewrite (bind_raise _ _ s s NameError (embedding_lookup_unbound w s Hm)).
Qed.

Lemma forward_feature_mismatch
    (m : ParserModel F) (w : tensor Z) (B nf : nat) (s : World F) :
  g_model s = Some m -> wf_model m ->
  shape w = [B; nf] -> wf_tensor w ->
  valid_indices (num_words m) w -> 1 <= B ->
  nf * embed_size m <> embed_size m * n_features m ->
  forward w s = Raise RuntimeError s.
Proof.
  intros Hm Hwf Hshape Hw Hvalid HB Hmismatch.
  rewrite (forward_run w s m Hm). unfold hidden_fn.
  rewrite (lookup_fn_ok _ _ _ _ _ _ (wf_embeddings_shape Hwf)
             (wf_embeddings Hwf) Hshape Hw Hvalid HB).
  cbn [rbind]. unfold matmul_dtypes.
  destruct (dtype_eqb (dtype_of (embeddings m)) float32); [|reflexivity].
  unfold matmul. cbn [shape].
  rewrite (wf_w1_shape Hwf).
  now rewrite (proj2 (Nat.eqb_neq _ _) Hmismatch).
Qed.

(** X5.  An index tensor whose number of features does not fit the first
    layer makes [forward] raise [RuntimeError] at the first matrix
    product, with the state as it was, whatever the dtype of the
    embeddings. *)
Theorem forward_rejects_wrong_feature_count
    (m : ParserModel F) (w : tensor Z) (B nf : nat) (s : World F)
    (Hm : g_model s = Some m) (Hwf : wf_model m)
    (Hshape : shape w = [B; nf]) (Hw : wf_tensor w)
    (Hvalid : valid_indices (num_words m) w) (HB : 1 <= B)
    (Hmismatch : nf * embed_size m <> embed_size m * n_features m) :
  forward w s = Raise RuntimeError s.
Proof.
  rewrite (forward_run w s m Hm). unfold hidden_fn.
  rewrite (lookup_fn_ok _ _ _ _ _ _ (wf_embeddings_shape Hwf)
             (wf_embeddings Hwf) Hshape Hw Hvalid HB).
  cbn [rbind]. unfold matmul_dtypes.
  destruct (dtype_eqb (dtype_of (embeddings m)) float32); [|reflexivity].
  unfold matmul. cbn [shape].
  rewrite (wf_w1_shape Hwf).
  now rewrite (proj2 (Nat.eqb_neq _ _) Hmismatch).
Qed.

(** X6.  An index of [num_words] or more, or below [-num_words], makes
    both methods raise [IndexError] with the state as it was; [forward]
    stops before any layer is applied. *)
Theorem methods_raise_index_error
    (m : ParserModel F) (w : tensor Z) (s : World F)
    (Hm : g_model s = Some m) (Hwf : wf_model m)
    (Hbad : Exists (fun i => (i < - Z.of_nat (num_words m) \/
                              Z.of_nat (num_words m) <= i)%Z) (data w)) :
  embedding_lookup w s = Raise IndexError s /\
  forward w s = Raise IndexError s.
Proof.
  assert (E : embedding_lookup w s = Raise IndexError s).
  { rewrite (embedding_lookup_run w s m Hm). unfold lookup_fn, getitem.
    rewrite (wf_embeddings_shape Hwf), gather_undefined; [reflexivity|].
    revert Hbad. apply Exists_impl. intros i Hi. unfold select_row.
    now rewrite (wf_embeddings_shape Hwf), (norm_index_none _ _ Hi). }
  split; [exact E|].
  unfold forward. now rewrite (bind_raise _ _ s s IndexError E).
Qed.
(** X7.  [embedding_lookup] commutes with stacking batches: the lookup
    of two batches stacked on top of each other is the lookup of the first
    stacked on the lookup of the second. *)
Theorem embedding_lookup_stacks_batches
    (m : ParserModel F) (w1 w2 : tensor Z) (nw es B1 B2 nf : nat) (s : World F)
    (Hm : g_model s = Some m)
    (He : shape (embeddings m) = [nw; es]) (Hwe : wf_tensor (embeddings m))
    (Hshape1 : shape w1 = [B1; nf]) (Hshape2 : shape w2 = [B2; nf])
    (Hvalid1 : valid_indices nw w1) (Hvalid2 : valid_indices nw w2)
    (HB1 : 1 <= B1) (HB2 : 1 <= B2) :
  exists x1 x2,
    embedding_lookup w1 s = Return x1 s /\
    embedding_lookup w2 s = Return x2 s /\
    shape x1 = [B1; nf * es] /\ shape x2 = [B2; nf * es] /\
    embedding_lookup (mkTensor [B1 + B2; nf] (data w1 ++ data w2)) s =
      Return (mkTensor [B1 + B2; nf * es] (data x1 ++ data x2)) s.
Proof.
  assert (Hk : numel [nf] * es = nf * es) by (simpl; lia).
  assert (Hvalid : valid_indices nw (mkTensor [B1 + B2; nf] (data w1 ++ data w2))).
  { unfold valid_indices. cbn [data]. apply Forall_app. now split. }
  rewrite !(embedding_lookup_run _ s m Hm).
  rewrite (lookup_fn_any_rank _ w1 nw es B1 [nf] He Hwe Hshape1 Hvalid1 HB1).
  rewrite (lookup_fn_any_rank _ w2 nw es B2 [nf] He Hwe Hshape2 Hvalid2 HB2).
  rewrite (lookup_fn_any_rank _ (mkTensor [B1 + B2; nf] (data w1 ++ data w2))
             nw es (B1 + B2) [nf] He Hwe eq_refl Hvalid ltac:(lia)).
  rewrite Hk. eexists. eexists.
  split; [reflexivity|]. split; [reflexivity|].
  split; [reflexivity|]. split; [reflexivity|].
  cbn [data lift ret]. now rewrite flat_map_app.
Qed.

(** X9.  Both methods read the five parameter tensors and the dropout
    module, and nothing else of the model: two models that agree on these
    yield the same, whatever their fields [n_features], [n_classes],
    [embed_size], [hidden_size] and [dropout_prob] hold.  In particular
    assigning to [dropout_prob] after construction changes nothing, the
    dropout module keeps the probability it was built with. *)
Theorem methods_read_parameters_only
    (m m' : ParserModel F) (w : tensor Z) (s s' : World F)
    (Hm : g_model s = Some m) (Hm' : g_model s' = Some m')
    (Hrng : rng s = rng s')
    (He : embeddings m = embeddings m')
    (Hw1 : embed_to_hidden_weight m = embed_to_hidden_weight m')
    (Hb1 : embed_to_hidden_bias m = embed_to_hidden_bias m')
    (Hd : dropout m = dropout m')
    (Hw2 : hidden_to_logits_weight m = hidden_to_logits_weight m')
    (Hb2 : hidden_to_logits_bias m = hidden_to_logits_bias m') :
  yield (embedding_lookup w s) = yield (embedding_lookup w s') /\
  yield (forward w s) = yield (forward w s').
Proof.
  split.
  - rewrite (embedding_lookup_run w s m Hm), (embedding_lookup_run w s' m' Hm').
    now rewrite !yield_lift, He.
  - rewrite (forward_run w s m Hm), (forward_run w s' m' Hm').
    unfold hidden_fn. rewrite He, Hw1, Hb1.
    destruct (rbind (lookup_fn (embeddings m') w) _) as [h|e]; [|reflexivity].
    rewrite !yield_dropout_then. unfold logits_fn.
    now rewrite Hd, Hw2, Hb2, Hrng.
Qed.
End MoreMethodFacts.

Section MoreProgramFacts.
Context {F : Type} `{Scalar F}.

(** X10.  On a matrix of embeddings and a probability in range, unless a
    layer has neither inputs nor outputs, the constructor returns a model
    with the shapes the methods rely on: [embed_size] is the width of the
    matrix, the first layer is
    [(embed_size * n_features, hidden_size)] with a bias of [hidden_size],
    the second [(hidden_size, n_classes)] with a bias of [n_classes]; the
    embeddings are the ones given, with the dtype they came in, and
    dropout starts in training mode.  Only the generator has moved. *)
Theorem constructor_establishes_shapes
    (e : typed F) (nf hs nc : nat) (p0 : F) (s : World F) (nw es : nat)
    (He : shape e = [nw; es]) (Hwe : wf_tensor e)
    (Hp : prob_in_range p0 = true)
    (Hfan1 : hs + es * nf <> 0) (Hfan2 : nc + hs <> 0) :
  exists m s',
    ParserModel_init e nf hs nc p0 s = Return m s' /\
    frame_rng s s' /\ wf_model m /\
    embeddings m = e /\ num_words m = nw /\ embed_size m = es /\
    n_features m = nf /\ n_classes m = nc /\ hidden_size m = hs /\
    shape (embed_to_hidden_weight m) = [es * nf; hs] /\
    shape (embed_to_hidden_bias m) = [hs] /\
    shape (hidden_to_logits_weight m) = [hs; nc] /\
    shape (hidden_to_logits_bias m) = [nc] /\
    dropout m = mkDropout p0 true.
Proof.
  destruct (ParserModel_init_ok e nf hs nc p0 s nw es He Hwe Hp Hfan1 Hfan2)
    as (m & s' & E & Fr & Hwf & Hem & Hnf & Hnc & Hhs & Hd).
  exists m, s'.
  pose proof (wf_embeddings_shape Hwf) as Hes.
  rewrite Hem, He in Hes. injection Hes as Hnw Hes.
  split; [exact E|]. split; [exact Fr|]. split; [exact Hwf|].
  split; [exact Hem|]. split; [now symmetry|]. split; [now symmetry|].
  split; [exact Hnf|]. split; [exact Hnc|]. split; [exact Hhs|].
  split; [now rewrite (wf_w1_shape Hwf), <- Hes, Hnf, Hhs|].
  split; [now rewrite (wf_b1_shape Hwf), Hhs|].
  split; [now rewrite (wf_w2_shape Hwf), Hhs, Hnc|].
  split; [now rewrite (wf_b2_shape Hwf), Hnc|exact Hd].
Qed.

(** X11.  The constructor raises [IndexError] on embeddings of fewer than
    two dimensions, before anything is drawn, and [ValueError] on a
    dropout probability outside [[0, 1]], after the first layer has been
    initialised; in neither case is there a model. *)
Theorem constructor_rejects_bad_arguments
    (e : typed F) (nf hs nc : nat) (p0 : F) (s : World F) :
  (length (shape e) <= 1 ->
   ParserModel_init e nf hs nc p0 s = Raise IndexError s) /\
  (forall nw es, shape e = [nw; es] -> hs + es * nf <> 0 ->
   prob_in_range p0 = false ->
   exists s', ParserModel_init e nf hs nc p0 s = Raise ValueError s' /\
     frame_rng s s').
Proof.
  split.
  - intros Hrank. unfold ParserModel_init, size.
    destruct (shape e) as [|a [|b sh]]; [reflexivity|reflexivity|].
    simpl in Hrank. lia.
  - intros nw es He Hfan Hp. unfold ParserModel_init, size.
    rewrite He. cbn [nth_error]. rewrite bind_lift_ok.
    destruct (xavier_uniform_run (es * nf) hs s Hfan) as (w1 & s1 & E1 & Fr1 & _).
    destruct (uniform_run hs s1) as (b1 & s2 & E2 & Fr2 & _).
    rewrite (bind_return _ _ _ _ _ E1), (bind_return _ _ _ _ _ E2).
    unfold Dropout_init. rewrite Hp.
    exists s2. split; [reflexivity|].
    eapply frame_rng_trans; [exact Fr1|exact Fr2].
Qed.

(** X12.  A model fresh from the constructor on a [float32] matrix and
    bound to [model] runs [forward]: on any valid index tensor of shape
    [(batch_size, n_features)] with [batch_size >= 1] the call returns
    logits of shape [(batch_size, n_classes)].  On a matrix of another
    dtype the constructor returns as well and [forward] then raises
    [RuntimeError]. *)
Theorem constructed_model_runs_forward
    (e : typed F) (nf hs nc : nat) (p0 : F) (s : World F) (nw es : nat)
    (w : tensor Z) (B : nat)
    (He : shape e = [nw; es]) (Hwe : wf_tensor e)
    (Hp : prob_in_range p0 = true)
    (Hfan1 : hs + es * nf <> 0) (Hfan2 : nc + hs <> 0)
    (Hshape : shape w = [B; nf]) (Hw : wf_tensor w)
    (Hvalid : valid_indices nw w) (HB : 1 <= B) :
  (dtype_of e = float32 ->
   exists l s',
     (m <- ParserModel_init e nf hs nc p0;; set_model m;; forward w) s =
       Return l s' /\
     shape l = [B; nc] /\ wf_tensor l) /\
  (dtype_of e <> float32 ->
   yield ((m <- ParserModel_init e nf hs nc p0;; set_model m;; forward w) s) =
     Fail RuntimeError).
Proof.
  destruct (ParserModel_init_ok e nf hs nc p0 s nw es He Hwe Hp Hfan1 Hfan2)
    as (m & s1 & E & _ & Hwf & Hem & Hnf & Hnc & _ & Hd).
  rewrite (bind_return _ _ _ _ _ E).
  rewrite (bind_return (set_model m) _ s1 (with_model m s1) tt eq_refl).
  assert (Hnw : num_words m = nw).
  { unfold num_words, nrows. now rewrite Hem, He. }
  rewrite <- Hnf in Hshape. rewrite <- Hnw in Hvalid.
  assert (Hpm : prob_in_range (p (dropout m)) = true) by now rewrite Hd.
  split.
  - intros Hdt. rewrite <- Hem in Hdt.
    destruct (forward_returns_logits m w B (with_model m s1) eq_refl Hwf
                Hdt Hpm Hshape Hw Hvalid HB) as (l & s' & Run & Hl & Hwl).
    exists l, s'. split; [exact Run|]. split; [now rewrite <- Hnc|exact Hwl].
  - intros Hdt. rewrite <- Hem in Hdt.
    rewrite (forward_rows m w B (with_model m s1) eq_refl Hwf Hshape Hw Hvalid HB).
    destruct (dtype_eqb (dtype_of (embeddings m)) float32) eqn:Eq; [|reflexivity].
    apply dtype_eqb_eq in Eq. contradiction.
Qed.

(** X13.  [check_embedding] does detect embeddings that are not zero: on
    a bound model with at least a hundred embedding rows of positive
    width, none of whose entries compares equal to zero, it raises
    [AssertionError] whatever indices it draws. *)
Theorem check_embedding_detects_nonzero
    (m : ParserModel F) (nw es : nat) (s : World F)
    (Hm : g_model s = Some m)
    (He : shape (embeddings m) = [nw; es]) (Hwe : wf_tensor (embeddings m))
    (Hnw : 100 <= nw) (Hes : 1 <= es)
    (Hnz : Forall (fun v => is_zero v = false) (data (embeddings m))) :
  yield (check_embedding s) = Fail AssertionError.
Proof.
  destruct (check_embedding_run m nw es s Hm He Hwe Hnw)
    as (inds & s1 & _ & Si & Wi & Vi & _ & _ & _ & Chk).
  rewrite Chk.
  replace (forallb is_zero _) with false; [reflexivity|].
  symmetry. apply forallb_false_iff.
  assert (Hlen : length (data inds) = 144).
  { unfold wf_tensor in Wi. rewrite Si in Wi. exact Wi. }
  assert (Hi : (0 <= nth 0 (data inds) 0 < 100)%Z).
  { unfold valid_indices in Vi. rewrite Forall_forall in Vi.
    apply Vi, nth_In. lia. }
  set (j := Z.to_nat (nth 0 (data inds) 0%Z)).
  exists (nth (j * es + 0) (data (embeddings m)) fzero).
  assert (Hin : In (nth (j * es + 0) (data (embeddings m)) fzero)
                   (data (embeddings m))).
  { apply nth_In. unfold wf_tensor in Hwe. rewrite He in Hwe. simpl in Hwe.
    subst j. nia. }
  split; [|rewrite Forall_forall in Hnz; now apply Hnz].
  apply in_flat_map. exists 0. split; [apply in_seq; lia|].
  unfold spec_lookup_row, ncols. rewrite Si. cbn [nth].
  apply in_flat_map. exists 0. split; [apply in_seq; lia|].
  unfold spec_embedding_row, ncols. rewrite He. cbn [nth].
  apply in_map_iff. exists 0. split; [|apply in_seq; lia].
  unfold entry2. rewrite He, Si. cbn [Nat.mul Nat.add]. reflexivity.
Qed.

(** X14.  On a bound well-formed model with [float32] embeddings, a
    dropout probability in range, thirty-six features and at least a
    hundred embedding rows, [check_forward] passes exactly when the model
    has three classes, and raises [AssertionError] exactly when it has
    not.  With embeddings of another dtype it raises [RuntimeError]
    instead, whatever the number of classes. *)
Theorem check_forward_passes_iff_three_classes
    (m : ParserModel F) (s : World F)
    (Hm : g_model s = Some m) (Hwf : wf_model m)
    (Hp : prob_in_range (p (dropout m)) = true)
    (Hnf : n_features m = 36) (Hnw : 100 <= num_words m) :
  (dtype_of (embeddings m) = float32 ->
   (yield (check_forward s) = Ok tt <-> n_classes m = 3) /\
   (yield (check_forward s) = Fail AssertionError <-> n_classes m <> 3)) /\
  (dtype_of (embeddings m) <> float32 ->
   yield (check_forward s) = Fail RuntimeError).
Proof.
  split.
  - intros Hdt.
    destruct (check_forward_run m s Hm Hwf Hdt Hp Hnf Hnw)
      as (inputs & s1 & out & s2 & _ & _ & _ & _ & _ & _ & Hout & _ & _ & Chk).
    rewrite Chk, Hout.
    destruct (shape_eqb [4; n_classes m] [4; 3]) eqn:E; cbn [yield].
    + apply shape_eqb_true_iff in E. injection E as E.
      split; split; intros; congruence.
    + assert (n_classes m <> 3).
      { intros Hc. rewrite Hc in E. discriminate. }
      split; split; intros; congruence.
  - intros Hdt. unfold check_forward.
    set (s0 := with_calls (calls s ++ ["check_forward"%string]) s).
    rewrite (bind_return (enter "check_forward") _ s s0 tt eq_refl).
    destruct (randint_run 0 100 [4; 36] s0 ltac:(lia))
      as (inputs & s1 & E1 & Fr1 & Si & Wi & Vi).
    rewrite (bind_return _ _ _ _ _ E1).
    assert (Hm1 : g_model s1 = Some m).
    { destruct Fr1 as (_ & _ & Hg & _). now rewrite Hg. }
    assert (Vw : valid_indices (num_words m) inputs)
      by (apply (valid_indices_weaken 100); assumption).
    assert (Si' : shape inputs = [4; n_features m]) by now rewrite Hnf.
    assert (Run : forward inputs s1 = Raise RuntimeError s1).
    { rewrite (forward_rows m inputs 4 s1 Hm1 Hwf Si' Wi Vw ltac:(lia)).
      destruct (dtype_eqb (dtype_of (embeddings m)) float32) eqn:Eq; [|reflexivity].
      apply dtype_eqb_eq in Eq. contradiction. }
    now rewrite (bind_raise _ _ s1 s1 RuntimeError Run).
Qed.

(** X15.  On a bound well-formed model with at least a hundred embedding
    rows of positive width whose number of features is not thirty-six,
    [check_forward] does not reach its assertion: [forward] raises
    [RuntimeError] on the [(4, 36)] input. *)
Theorem check_forward_rejects_other_feature_counts
    (m : ParserModel F) (s : World F)
    (Hm : g_model s = Some m) (Hwf : wf_model m)
    (Hnf : n_features m <> 36) (Hes : 1 <= embed_size m)
    (Hnw : 100 <= num_words m) :
  yield (check_forward s) = Fail RuntimeError.
Proof.
  unfold check_forward.
  set (s0 := with_calls (calls s ++ ["check_forward"%string]) s).
  rewrite (bind_return (enter "check_forward") _ s s0 tt eq_refl).
  destruct (randint_run 0 100 [4; 36] s0 ltac:(lia))
    as (inputs & s1 & E1 & Fr1 & Si & Wi & Vi).
  rewrite (bind_return _ _ _ _ _ E1).
  assert (Hm1 : g_model s1 = Some m).
  { destruct Fr1 as (_ & _ & Hg & _). now rewrite Hg. }
  assert (Vw : valid_indices (num_words m) inputs)
    by (apply (valid_indices_weaken 100); assumption).
  rewrite (bind_raise _ _ s1 s1 RuntimeError
             (forward_feature_mismatch m inputs 4 36 s1 Hm1 Hwf Si Wi Vw
                ltac:(lia) ltac:(nia))).
  reflexivity.
Qed.

Lemma bind_return_kernel {A B} (c : M (Kernel F) A) (f : A -> M (Kernel F) B)
    (k k' : Kernel F) (a : A) :
  c k = Return a k' -> bind c f k = f a k'.
Proof. intros Hc. unfold bind. now rewrite Hc. Qed.

Lemma in_world_return {A} (c : M (World F) A) (k : Kernel F) (a : A) (s : World F) :
  c (world k) = Return a s ->
  in_world c k = Return a (mkKernel s (imported k) (class_defined k)).
Proof. intros Hc. unfold in_world. now rewrite Hc. Qed.

Lemma in_world_raise {A} (c : M (World F) A) (k : Kernel F) (e : exn) (s : World F) :
  c (world k) = Raise e s ->
  in_world c k = Raise e (mkKernel s (imported k) (class_defined k)).
Proof. intros Hc. unfold in_world. now rewrite Hc. Qed.

Lemma run_cell_3 (k : Kernel F) :
  imported k = true ->
  run_cell Cell3 k = in_world cell_3 (mkKernel (world k) (imported k) true).
Proof.
  destruct k as [s i d]. cbn [imported]. intros ->. reflexivity.
Qed.

Lemma later_main_block_defined (c : M (World F) unit) (k : Kernel F) :
  imported k = true -> class_defined k = true ->
  later_main_block c k = in_world c k.
Proof.
  destruct k as [s i d]. cbn [imported class_defined]. intros -> ->.
  reflexivity.
Qed.

Lemma later_main_block_undefined (c : M (World F) unit) (k : Kernel F) :
  imported k = true -> class_defined k = false ->
  later_main_block c k =
    Raise NameError
      (mkKernel (with_embeddings (mkTyped float32 (zeros [100; 30])) (world k))
         (imported k) (class_defined k)).
Proof.
  destruct k as [s i d]. cbn [imported class_defined]. intros -> ->.
  reflexivity.
Qed.

(** The main block of each of the three cells stops at its first test of
    a flag while [args] is unbound, its model built. *)
Lemma main_block_needs_args (c : M (World F) unit) (s : World F) :
  c = cell_3 \/ c = cell_4 \/ c = cell_5 ->
  g_args s = None ->
  exists s1, c s = Raise NameError s1 /\
    calls s1 = calls s /\ stdout s1 = stdout s /\ g_model s1 <> None.
Proof.
  intros Hc Hargs.
  destruct (make_model_run s) as (m & s1 & E1 & Hm1 & _ & _ & _ & _ & _ & Ef1).
  destruct Ef1 as (Ha & _ & Hcalls & Ho). rewrite app_nil_r in Hcalls, Ho.
  assert (Hg : global g_args s1 = Raise NameError s1).
  { unfold global. now rewrite Ha, Hargs. }
  exists s1. split; [|split; [exact Hcalls|split; [exact Ho|]]].
  - destruct Hc as [ -> | [ -> | -> ] ].
    + unfold cell_3, run_embedding_check.
      rewrite (bind_return _ _ _ _ _ E1).
      now rewrite (bind_raise _ _ s1 s1 NameError (bind_raise _ _ s1 s1 NameError Hg)).
    + unfold cell_4, run_embedding_check.
      rewrite (bind_return _ _ _ _ _ E1).
      now rewrite (bind_raise _ _ s1 s1 NameError Hg).
    + unfold cell_5.
      rewrite (bind_return _ _ _ _ _ E1).
      now rewrite (bind_raise _ _ s1 s1 NameError Hg).
  - rewrite Hm1. discriminate.
Qed.

(** X16.  Each of the three main cells needs the names it reads.  Before
    the imports of the first cell it raises [NameError] at once.  After
    them, and before the cell that sets [args], the third cell (and the
    fourth and fifth once the class is defined) builds its model and then
    raises [NameError] at its first test of a flag: no check is entered
    and nothing is printed.  The fourth and fifth cells run before the
    class is defined raise [NameError] at [ParserModel], having assigned
    [embeddings] and nothing else. *)
Theorem main_cells_need_bound_names
    (c : cell) (k : Kernel F)
    (Hmain : c = Cell3 \/ c = Cell4 \/ c = Cell5) :
  (imported k = false -> run_cell c k = Raise NameError k) /\
  (imported k = true -> g_args (world k) = None ->
   c = Cell3 \/ class_defined k = true ->
   yield (run_cell c k) = Fail NameError /\
   calls (world (final_state (run_cell c k))) = calls (world k) /\
   stdout (world (final_state (run_cell c k))) = stdout (world k) /\
   g_model (world (final_state (run_cell c k))) <> None) /\
  (imported k = true -> c <> Cell3 -> class_defined k = false ->
   run_cell c k =
     Raise NameError
       (mkKernel (with_embeddings (mkTyped float32 (zeros [100; 30])) (world k))
          (imported k) (class_defined k))).
Proof.
  split; [|split].
  - destruct k as [s i d]. cbn [imported]. intros ->.
    destruct Hmain as [ -> | [ -> | -> ] ]; reflexivity.
  - intros Hi Hargs Hdef.
    assert (Hrun : exists c' k0, run_cell c k = in_world c' k0 /\
              world k0 = world k /\
              (c' = cell_3 \/ c' = cell_4 \/ c' = cell_5)).
    { destruct Hmain as [ -> | [ -> | -> ] ].
      - exists cell_3, (mkKernel (world k) (imported k) true).
        split; [exact (run_cell_3 k Hi)|]. split; [reflexivity|]. now left.
      - destruct Hdef as [Hx|Hdef]; [discriminate|].
        exists cell_4, k.
        split; [exact (later_main_block_defined cell_4 k Hi Hdef)|].
        split; [reflexivity|]. right. now left.
      - destruct Hdef as [Hx|Hdef]; [discriminate|].
        exists cell_5, k.
        split; [exact (later_main_block_defined cell_5 k Hi Hdef)|].
        split; [reflexivity|]. right. now right. }
    destruct Hrun as (c' & k0 & Hrun & Hw & Hc').
    rewrite <- Hw in Hargs.
    destruct (main_block_needs_args c' (world k0) Hc' Hargs)
      as (s1 & E & Hcalls & Ho & Hmodel).
    rewrite Hrun, (in_world_raise _ _ _ _ E). cbn [yield final_state world].
    rewrite <- Hw. split; [reflexivity|]. split; [exact Hcalls|].
    split; [exact Ho|exact Hmodel].
  - intros Hi Hc Hdef.
    destruct Hmain as [ -> | [ -> | -> ] ]; [contradiction| |];
      cbn [run_cell]; exact (later_main_block_undefined _ k Hi Hdef).
Qed.

(** X17.  Once the imports are done and [args] is bound, the cells can be
    run in any order and any number of times, provided the fourth and
    fifth come after a third one that defines the class: every run
    returns, whatever model an earlier cell left behind, and the checks
    entered are those the flags select, cell by cell; re-running the
    second cell resets the flags. *)
Theorem cells_run_in_any_order
    (cs : list cell) (a : Args.t) (k : Kernel F)
    (Hargs : g_args (world k) = Some a)
    (Himp : imported k = true)
    (Hready : cells_ready (class_defined k) cs = true) :
  exists k', run_cells cs k = Return tt k' /\
    calls (world k') = calls (world k) ++ cells_calls a cs.
Proof.
  revert a k Hargs Himp Hready.
  induction cs as [|c cs IH]; intros a k Hargs Himp Hready.
  - exists k. split; [reflexivity|]. cbn. now rewrite app_nil_r.
  - assert (Hstep : forall k1 l,
              run_cell c k = Return tt k1 -> g_args (world k1) = Some a ->
              imported k1 = true -> cells_ready (class_defined k1) cs = true ->
              calls (world k1) = calls (world k) ++ l ->
              exists k', run_cells (c :: cs) k = Return tt k' /\
                calls (world k') = calls (world k) ++ l ++ cells_calls a cs).
    { intros k1 l E Ha Hi Hr Hc. destruct (IH a k1 Ha Hi Hr) as (k' & E' & Hc').
      exists k'. cbn [run_cells]. rewrite (bind_return_kernel _ _ _ _ _ E).
      split; [exact E'|]. now rewrite Hc', Hc, app_assoc. }
    destruct c; cbn [cells_calls cell_calls cells_ready] in *.
    + apply (Hstep (mkKernel (world k) true (class_defined k)) []);
        [reflexivity|exact Hargs|reflexivity|exact Hready|now rewrite app_nil_r].
    + destruct (IH (Args.mk true false)
                  (mkKernel (with_args (Args.mk true false) (world k))
                     (imported k) (class_defined k)) eq_refl Himp Hready)
        as (k' & E' & Hc').
      exists k'. cbn [run_cells run_cell].
      rewrite (bind_return_kernel (need_imports;; in_world cell_2) _ k
                 (mkKernel (with_args (Args.mk true false) (world k))
                    (imported k) (class_defined k)) tt).
      2:{ clear - Himp. destruct k as [s i d]. cbn [imported] in Himp.
          subst i. reflexivity. }
      split; [exact E'|exact Hc'].
    + destruct (cell_3_run a (world k) Hargs) as (s1 & E & (Ha & _ & Hc & _)).
      apply (Hstep (mkKernel s1 (imported k) true) (gated_calls a)).
      * rewrite (run_cell_3 k Himp).
        exact (in_world_return cell_3 (mkKernel (world k) (imported k) true) tt s1 E).
      * cbn [world]. now rewrite Ha.
      * exact Himp.
      * exact Hready.
      * exact Hc.
    + apply andb_true_iff in Hready. destruct Hready as [Hdef Hready].
      destruct (cell_4_run a (world k) Hargs) as (s1 & E & (Ha & _ & Hc & _)).
      apply (Hstep (mkKernel s1 (imported k) (class_defined k))).
      * cbn [run_cell]. rewrite (later_main_block_defined cell_4 k Himp Hdef).
        exact (in_world_return _ _ _ _ E).
      * cbn [world]. now rewrite Ha.
      * exact Himp.
      * exact Hready.
      * exact Hc.
    + apply andb_true_iff in Hready. destruct Hready as [Hdef Hready].
      destruct (cell_5_run a (world k) Hargs) as (s1 & E & (Ha & _ & Hc & _)).
      apply (Hstep (mkKernel s1 (imported k) (class_defined k))).
      * cbn [run_cell]. rewrite (later_main_block_defined cell_5 k Himp Hdef).
        exact (in_world_return _ _ _ _ E).
      * cbn [world]. now rewrite Ha.
      * exact Himp.
      * exact Hready.
      * exact Hc.
    + destruct (cell_6_run (world k)) as (s1 & E & (Ha & _ & Hc & _)).
      apply (Hstep (mkKernel s1 (imported k) (class_defined k)) []).
      * exact (in_world_return _ _ _ _ E).
      * cbn [world]. now rewrite Ha.
      * exact Himp.
      * exact Hready.
      * exact Hc.
Qed.
End MoreProgramFacts.

(** * The further properties on concrete inputs *)

Lemma w_vector_valid : valid_indices 3 w_vector.
Proof. unfold valid_indices. cbn. repeat constructor; lia. Qed.

Lemma w_tiny_valid3 : valid_indices 3 w_tiny.
Proof. exact w_tiny_valid. Qed.

Lemma w_other_valid3 : valid_indices 3 w_other.
Proof. exact w_other_valid. Qed.

Lemma w_three_valid : valid_indices (num_words (tiny_model false)) w_three.
Proof. unfold valid_indices. cbn. repeat constructor; lia. Qed.

Lemma s_tiny_eval (m : ParserModel Z) :
  g_model s_tiny = Some m -> training (dropout m) = false.
Proof. intros Hm. injection Hm as <-. reflexivity. Qed.

Lemma unit_model_wf_36_3 : wf_model (unit_model 36 3).
Proof. constructor; reflexivity. Qed.

Lemma unit_model_wf_36_2 : wf_model (unit_model 36 2).
Proof. constructor; reflexivity. Qed.

Lemma unit_model_wf_35_3 : wf_model (unit_model 35 3).
Proof. constructor; reflexivity. Qed.

Lemma unit_embeddings_nonzero :
  Forall (fun v => is_zero v = false) (data (embeddings (unit_model 36 3))).
Proof.
  apply Forall_forall. intros v Hv. cbn [unit_model embeddings data] in Hv.
  apply repeat_spec in Hv. now subst v.
Qed.

Lemma embedding_lookup_flattens_any_rank_witness :
  embedding_lookup w_vector s_tiny =
    Return (mkTensor [3; 2] [5; 6; 1; 2; 3; 4]%Z) s_tiny.
Proof.
  rewrite (embedding_lookup_flattens_any_rank (tiny_model false) w_vector 3 2 3 []
             s_tiny eq_refl eq_refl eq_refl eq_refl w_vector_valid
             (le_S 1 2 (le_S 1 1 (le_n 1)))).
  reflexivity.
Defined.

Lemma embedding_lookup_negative_indices_witness :
  embedding_lookup w_negative s_tiny =
    embedding_lookup (mkTensor [1; 2] [2; 0]%Z) s_tiny.
Proof.
  apply (embedding_lookup_negative_indices (tiny_model false) w_negative 3 2
           s_tiny eq_refl eq_refl).
  cbn. repeat constructor; lia.
Defined.

Lemma embedding_lookup_entries_from_matrix_witness :
  exists x, embedding_lookup w_tiny s_tiny = Return x s_tiny /\
    Forall (fun v => In v [1; 2; 3; 4; 5; 6]%Z) (data x).
Proof.
  exact (embedding_lookup_entries_from_matrix (tiny_model false) w_tiny 3 2 2 [2]
           s_tiny eq_refl eq_refl eq_refl eq_refl w_tiny_valid3 (le_S 1 1 (le_n 1))).
Defined.

Lemma lookup_and_eval_forward_leave_state_witness :
  final_state (embedding_lookup w_tiny s_tiny) = s_tiny /\
  final_state (forward w_tiny s_tiny) = s_tiny.
Proof.
  exact (lookup_and_eval_forward_leave_state w_tiny s_tiny s_tiny_eval).
Defined.

Lemma forward_rejects_wrong_feature_count_witness :
  forward w_three s_tiny = Raise RuntimeError s_tiny.
Proof.
  apply (forward_rejects_wrong_feature_count (tiny_model false) w_three 1 3 s_tiny
           eq_refl (tiny_model_wf false) eq_refl eq_refl w_three_valid (le_n 1)).
  cbn. lia.
Defined.

Lemma methods_raise_index_error_witness :
  embedding_lookup w_bad s_tiny = Raise IndexError s_tiny /\
  forward w_bad s_tiny = Raise IndexError s_tiny.
Proof.
  apply (methods_raise_index_error (tiny_model false) w_bad s_tiny
           eq_refl (tiny_model_wf false)).
  apply Exists_cons_tl, Exists_cons_hd. right. cbn. lia.
Defined.

Lemma embedding_lookup_stacks_batches_witness :
  exists x1 x2,
    embedding_lookup w_tiny s_tiny = Return x1 s_tiny /\
    embedding_lookup w_other s_tiny = Return x2 s_tiny /\
    shape x1 = [2; 2 * 2] /\ shape x2 = [3; 2 * 2] /\
    embedding_lookup (mkTensor [2 + 3; 2] (data w_tiny ++ data w_other)) s_tiny =
      Return (mkTensor [2 + 3; 2 * 2] (data x1 ++ data x2)) s_tiny.
Proof.
  exact (embedding_lookup_stacks_batches (tiny_model false) w_tiny w_other
           3 2 2 3 2 s_tiny eq_refl eq_refl eq_refl eq_refl eq_refl
           w_tiny_valid3 w_other_valid3 (le_S 1 1 (le_n 1))
           (le_S 1 2 (le_S 1 1 (le_n 1)))).
Defined.

Lemma methods_read_parameters_only_witness :
  yield (embedding_lookup w_tiny s_tiny) = yield (embedding_lookup w_tiny s_relabelled) /\
  yield (forward w_tiny s_tiny) = yield (forward w_tiny s_relabelled).
Proof.
  exact (methods_read_parameters_only (tiny_model false) tiny_model_relabelled
           w_tiny s_tiny s_relabelled eq_refl eq_refl eq_refl eq_refl eq_refl
           eq_refl eq_refl eq_refl eq_refl).
Defined.

Lemma constructor_establishes_shapes_witness :
  exists m s',
    ParserModel_init (embeddings (tiny_model false)) 2 3 2 0%Z s_fresh = Return m s' /\
    wf_model m /\ num_words m = 3 /\ embed_size m = 2 /\
    shape (embed_to_hidden_weight m) = [2 * 2; 3] /\
    shape (hidden_to_logits_weight m) = [3; 2] /\
    dropout m = mkDropout 0%Z true.
Proof.
  destruct (@constructor_establishes_shapes Z Scalar_Z (embeddings (tiny_model false)) 2 3 2 0%Z
              s_fresh 3 2 eq_refl eq_refl eq_refl
              (fun E => O_S _ (eq_sym E)) (fun E => O_S _ (eq_sym E)))
    as (m & s' & E & _ & Hwf & _ & Hnw & Hes & _ & _ & _ & Hw1 & _ & Hw2 & _ & Hd).
  exists m, s'.
  split; [exact E|]. split; [exact Hwf|]. split; [exact Hnw|].
  split; [exact Hes|]. split; [exact Hw1|]. split; [exact Hw2|exact Hd].
Defined.

Lemma constructor_rejects_bad_arguments_witness :
  ParserModel_init (mkTyped float32 (mkTensor [3] [1; 2; 3]%Z)) 2 3 2 0%Z s_fresh =
    Raise IndexError s_fresh /\
  exists s',
    ParserModel_init (embeddings (tiny_model false)) 2 3 2 200%Z s_fresh =
      Raise ValueError s' /\ frame_rng s_fresh s'.
Proof.
  split.
  - exact (proj1 (@constructor_rejects_bad_arguments Z Scalar_Z
                    (mkTyped float32 (mkTensor [3] [1; 2; 3]%Z))
                    2 3 2 0%Z s_fresh) (le_n 1)).
  - exact (proj2 (@constructor_rejects_bad_arguments Z Scalar_Z (embeddings (tiny_model false))
                    2 3 2 200%Z s_fresh) 3 2 eq_refl
             (fun E => O_S _ (eq_sym E)) eq_refl).
Defined.

Lemma constructed_model_runs_forward_witness :
  (exists l s',
     (m <- ParserModel_init (embeddings (tiny_model false)) 2 3 2 0%Z;;
      set_model m;; forward w_tiny) s_fresh = Return l s' /\
     shape l = [2; 2] /\ wf_tensor l) /\
  yield ((m <- ParserModel_init tiny_embeddings_float64 2 3 2 0%Z;;
          set_model m;; forward w_tiny) s_fresh) = Fail RuntimeError.
Proof.
  split.
  - exact (proj1 (@constructed_model_runs_forward Z Scalar_Z
                    (embeddings (tiny_model false)) 2 3 2 0%Z
                    s_fresh 3 2 w_tiny 2 eq_refl eq_refl eq_refl
                    (fun E => O_S _ (eq_sym E)) (fun E => O_S _ (eq_sym E))
                    eq_refl eq_refl w_tiny_valid3 (le_S 1 1 (le_n 1))) eq_refl).
  - apply (proj2 (@constructed_model_runs_forward Z Scalar_Z
                    tiny_embeddings_float64 2 3 2 0%Z
                    s_fresh 3 2 w_tiny 2 eq_refl eq_refl eq_refl
                    (fun E => O_S _ (eq_sym E)) (fun E => O_S _ (eq_sym E))
                    eq_refl eq_refl w_tiny_valid3 (le_S 1 1 (le_n 1)))).
    discriminate.
Defined.

Lemma check_embedding_detects_nonzero_witness :
  yield (check_embedding (s_unit 36 3)) = Fail AssertionError.
Proof.
  exact (check_embedding_detects_nonzero (unit_model 36 3) 100 1 (s_unit 36 3)
           eq_refl eq_refl eq_refl (le_n 100) (le_n 1) unit_embeddings_nonzero).
Defined.

Lemma check_forward_passes_iff_three_classes_witness :
  yield (check_forward (s_unit 36 3)) = Ok tt /\
  yield (check_forward (s_unit 36 2)) = Fail AssertionError.
Proof.
  split.
  - apply (proj1 (proj1 (@check_forward_passes_iff_three_classes Z Scalar_Z
                    (unit_model 36 3) (s_unit 36 3) eq_refl unit_model_wf_36_3
                    eq_refl eq_refl (le_n 100)) eq_refl)).
    reflexivity.
  - apply (proj2 (proj1 (@check_forward_passes_iff_three_classes Z Scalar_Z
                    (unit_model 36 2) (s_unit 36 2) eq_refl unit_model_wf_36_2
                    eq_refl eq_refl (le_n 100)) eq_refl)).
    discriminate.
Defined.

Lemma check_forward_rejects_other_feature_counts_witness :
  yield (check_forward (s_unit 35 3)) = Fail RuntimeError.
Proof.
  apply (check_forward_rejects_other_feature_counts (unit_model 35 3)
           (s_unit 35 3) eq_refl unit_model_wf_35_3).
  - discriminate.
  - exact (le_n 1).
  - exact (le_n 100).
Defined.

Lemma main_cells_need_bound_names_witness :
  (yield (run_cell Cell3 k_imported) = Fail NameError /\
   calls (world (final_state (run_cell Cell3 k_imported))) = [] /\
   stdout (world (final_state (run_cell Cell3 k_imported))) = [] /\
   g_model (world (final_state (run_cell Cell3 k_imported))) <> None) /\
  run_cell Cell4 k_imported =
    Raise NameError
      (mkKernel (with_embeddings (mkTyped float32 (zeros [100; 30])) s_fresh)
         true false).
Proof.
  split.
  - exact (proj1 (proj2 (main_cells_need_bound_names Cell3 k_imported
                           (or_introl eq_refl)))
             eq_refl eq_refl (or_introl eq_refl)).
  - apply (proj2 (proj2 (main_cells_need_bound_names Cell4 k_imported
                           (or_intror (or_introl eq_refl))))).
    + reflexivity.
    + discriminate.
    + reflexivity.
Defined.

Lemma cells_run_in_any_order_witness :
  exists k', run_cells [Cell3; Cell5; Cell2; Cell4; Cell1; Cell5] k_flags = Return tt k' /\
    calls (world k') = ["check_embedding"; "check_forward"; "check_forward";
                        "check_embedding"]%string.
Proof.
  destruct (cells_run_in_any_order [Cell3; Cell5; Cell2; Cell4; Cell1; Cell5]
              (Args.mk true true) k_flags eq_refl eq_refl eq_refl)
    as (k' & E & Hc).
  exists k'. split; [exact E|exact Hc].
Defined.
